(** * Streamer: a shallow embedding of src/Streamer.cpp

    The streamer process is modelled as a state-passing program over a
    [World]: the member variables of the [Streamer] object, the global
    [early_exit] flag, the log written so far and the trace of every call the
    process made to its environment (system calls, the clock, the Ice
    runtime) together with the reply it got.  The environment is an oracle
    [Env] that answers each call from the history of the run, so that every
    theorem below quantifies over all behaviours of the operating system, of
    the transcoder and of the portal.

    [main] installs [exitHandler] for SIGINT and hands over to
    [Ice::Application::main], which calls [Streamer::run]: the model starts at
    [run], and the exit code of the process is what [run] returns.  The
    loops of the program that need not end take a fuel; a loop that used it
    up ends in [Timeout].  Integers of the program are in Z: the only
    arithmetic on them is [remaining -= n], within 0..256, the difference of
    two readings of the clock, and atoi. *)

From Stdlib Require Import List ZArith Lia Bool String Ascii DecimalString.
From Stdlib Require Import Strings.Byte.
Import ListNotations.
Open Scope Z_scope.

(** ** Data *)

(** [StreamEntry] of the Ice interface, as [Streamer::run] fills it. *)
Record StreamEntry := mkStreamEntry {
  streamName : string;
  endpoint : string;
  videoSize : string;
  bitRate : string;
  keyword : list string
}.

(** Every interaction of the process with the outside. *)
Inductive call :=
| c_portal                                   (* propertyToProxy + checkedCast *)
| c_NewStream (e : StreamEntry)
| c_CloseStream (e : StreamEntry)
| c_socket (nonblock : bool)
| c_bind (fd port : Z)
| c_listen (fd backlog : Z)
| c_setsockopt (fd : Z)
| c_fork
| c_execlp (file : string) (args : list string)
| c_connect (fd port : Z)
| c_usleep (us : Z)
| c_accept4 (fd : Z)
| c_getMSTime
| c_read (fd offset count : Z)
| c_write (fd : Z) (buf : list byte) (count : Z)
| c_shutdown (fd : Z)
| c_close (fd : Z)
| c_kill (pid sig : Z)
| c_wait
| c_early_exit.                              (* a read of the global flag *)

Inductive reply :=
| r_int (n : Z)
| r_data (d : list byte)                     (* a read that stored [d] *)
| r_throw.                                   (* an Ice exception *)

Record event := Ev { ev_call : call; ev_reply : reply }.

Inductive severity := INFO | ERROR.

(** The environment: replies are a function of the history of the run. *)
Record Env := mkEnv {
  sys : list event -> call -> Z;
  (* read(2) on the upstream socket: [None] is an error (-1), [Some d] makes
     the bytes [d] available, of which read takes at most [count];
     [Some []] is end of stream *)
  upstream : list event -> Z -> Z -> option (list byte);
  (* an Ice invocation: [None] raises, [Some b] returns ([b]: the proxy
     obtained is non-null) *)
  ice : list event -> call -> option bool;
  (* SIGINT is delivered during the call that completed this history *)
  sigint : list event -> bool
}.

(** The member variables of [Streamer]. *)
Record Streamer := mkStreamer {
  _videoFilePath : string;
  _transport : string;
  _host : string;
  _listenPort : Z;
  _ffmpegPort : Z;
  _streamEntry : StreamEntry;
  _portal : bool;                            (* the proxy is non-null *)
  _listenSocketFd : Z;
  _ffmpegSocketFd : Z;
  _ffmpegPid : Z;
  _clientList : list Z
}.

Record World := mkWorld {
  app : Streamer;
  early_exit : bool;
  trace : list event;
  log : list (severity * string)
}.

Definition set_videoFilePath (v : string) (s : Streamer) : Streamer :=
  mkStreamer v (_transport s) (_host s) (_listenPort s) (_ffmpegPort s)
    (_streamEntry s) (_portal s) (_listenSocketFd s) (_ffmpegSocketFd s)
    (_ffmpegPid s) (_clientList s).
Definition set_transport (v : string) (s : Streamer) : Streamer :=
  mkStreamer (_videoFilePath s) v (_host s) (_listenPort s) (_ffmpegPort s)
    (_streamEntry s) (_portal s) (_listenSocketFd s) (_ffmpegSocketFd s)
    (_ffmpegPid s) (_clientList s).
Definition set_host (v : string) (s : Streamer) : Streamer :=
  mkStreamer (_videoFilePath s) (_transport s) v (_listenPort s) (_ffmpegPort s)
    (_streamEntry s) (_portal s) (_listenSocketFd s) (_ffmpegSocketFd s)
    (_ffmpegPid s) (_clientList s).
Definition set_listenPort (v : Z) (s : Streamer) : Streamer :=
  mkStreamer (_videoFilePath s) (_transport s) (_host s) v (_ffmpegPort s)
    (_streamEntry s) (_portal s) (_listenSocketFd s) (_ffmpegSocketFd s)
    (_ffmpegPid s) (_clientList s).
Definition set_ffmpegPort (v : Z) (s : Streamer) : Streamer :=
  mkStreamer (_videoFilePath s) (_transport s) (_host s) (_listenPort s) v
    (_streamEntry s) (_portal s) (_listenSocketFd s) (_ffmpegSocketFd s)
    (_ffmpegPid s) (_clientList s).
Definition set_streamEntry (v : StreamEntry) (s : Streamer) : Streamer :=
  mkStreamer (_videoFilePath s) (_transport s) (_host s) (_listenPort s)
    (_ffmpegPort s) v (_portal s) (_listenSocketFd s) (_ffmpegSocketFd s)
    (_ffmpegPid s) (_clientList s).
Definition set_portal (v : bool) (s : Streamer) : Streamer :=
  mkStreamer (_videoFilePath s) (_transport s) (_host s) (_listenPort s)
    (_ffmpegPort s) (_streamEntry s) v (_listenSocketFd s) (_ffmpegSocketFd s)
    (_ffmpegPid s) (_clientList s).
Definition set_listenSocketFd (v : Z) (s : Streamer) : Streamer :=
  mkStreamer (_videoFilePath s) (_transport s) (_host s) (_listenPort s)
    (_ffmpegPort s) (_streamEntry s) (_portal s) v (_ffmpegSocketFd s)
    (_ffmpegPid s) (_clientList s).
Definition set_ffmpegSocketFd (v : Z) (s : Streamer) : Streamer :=
  mkStreamer (_videoFilePath s) (_transport s) (_host s) (_listenPort s)
    (_ffmpegPort s) (_streamEntry s) (_portal s) (_listenSocketFd s) v
    (_ffmpegPid s) (_clientList s).
Definition set_ffmpegPid (v : Z) (s : Streamer) : Streamer :=
  mkStreamer (_videoFilePath s) (_transport s) (_host s) (_listenPort s)
    (_ffmpegPort s) (_streamEntry s) (_portal s) (_listenSocketFd s)
    (_ffmpegSocketFd s) v (_clientList s).
Definition set_clientList (v : list Z) (s : Streamer) : Streamer :=
  mkStreamer (_videoFilePath s) (_transport s) (_host s) (_listenPort s)
    (_ffmpegPort s) (_streamEntry s) (_portal s) (_listenSocketFd s)
    (_ffmpegSocketFd s) (_ffmpegPid s) v.

(** ** Strings *)

Open Scope string_scope.

(** std::to_string on an int. *)
Definition to_string (n : Z) : string := NilZero.string_of_int (Z.to_int n).

Definition isspace (c : ascii) : bool :=
  let n := nat_of_ascii c in
  (Nat.eqb n 32 || (Nat.leb 9 n && Nat.leb n 13))%bool.

Definition digit_of (c : ascii) : option Z :=
  let n := nat_of_ascii c in
  if (Nat.leb 48 n && Nat.leb n 57)%bool then Some (Z.of_nat (n - 48)) else None.

Fixpoint atoi_digits (s : string) (acc : Z) : Z :=
  match s with
  | EmptyString => acc
  | String c s' =>
      match digit_of c with
      | Some d => atoi_digits s' (10 * acc + d)
      | None => acc
      end
  end.

Fixpoint atoi_skip (s : string) : string :=
  match s with
  | EmptyString => s
  | String c s' => if isspace c then atoi_skip s' else s
  end.

(** strtol in base 10: blanks, an optional sign, then the leading decimal
    digits; a value outside long is replaced by the nearest bound. *)
Definition strtol (s : string) : Z :=
  let v := match atoi_skip s with
           | String "-" s' => - atoi_digits s' 0
           | String "+" s' => atoi_digits s' 0
           | s' => atoi_digits s' 0
           end in
  Z.max (- 2 ^ 63) (Z.min (2 ^ 63 - 1) v).

(** The conversion of a long to int keeps the low 32 bits. *)
Definition int_of_long (v : Z) : Z := (v + 2 ^ 31) mod 2 ^ 32 - 2 ^ 31.

(** atoi, as the C library of a 64-bit Linux has it: [(int) strtol (s, NULL,
    10)].  On a value outside int the C standard leaves the result
    undefined. *)
Definition atoi (s : string) : Z := int_of_long (strtol s).

(** The loop [while (std::getline(ss, t, ','))] over the characters left in
    the stream: [t] is the token being read, [extracted] tells whether
    getline has consumed a character for it. *)
Fixpoint getline_loop (ss : string) (t : string) (extracted : bool) : list string :=
  match ss with
  | EmptyString => if extracted then [t] else []
  | String c ss' =>
      if Ascii.eqb c "," then t :: getline_loop ss' "" false
      else getline_loop ss' (t ++ String c "") true
  end.

Close Scope string_scope.

(** htons takes a uint16_t. *)
Definition htons_port (p : Z) : Z := p mod 65536.

Definition LISTEN_BACKLOG : Z := 10.
Definition BUFFER_SIZE : Z := 256.
Definition SIGTERM : Z := 15.

(** ** How a piece of the program can end *)

Inductive outcome (A : Type) : Type :=
| Ret (a : A) (w : World)        (* it returned [a] *)
| Throw (w : World)              (* an Ice exception propagates: the file has no handler *)
| Replaced (w : World)           (* execlp succeeded: the process image is gone *)
| Timeout (w : World).           (* the fuel of the model ran out: still looping *)
Arguments Ret {A} a w.
Arguments Throw {A} w.
Arguments Replaced {A} w.
Arguments Timeout {A} w.

Definition world_of {A} (o : outcome A) : World :=
  match o with Ret _ w | Throw w | Replaced w | Timeout w => w end.

Definition M (A : Type) : Type := World -> outcome A.

Definition ret {A} (a : A) : M A := fun w => Ret a w.

Definition bind {A B} (m : M A) (k : A -> M B) : M B :=
  fun w => match m w with
           | Ret a w' => k a w'
           | Throw w' => Throw w'
           | Replaced w' => Replaced w'
           | Timeout w' => Timeout w'
           end.

Notation "x <- m ;; k" := (bind m (fun x => k))
  (at level 61, m at next level, right associativity).
Notation "m ;;; k" := (bind m (fun _ => k))
  (at level 61, right associativity).

Definition get {A} (f : Streamer -> A) : M A := fun w => Ret (f (app w)) w.

Definition modify (f : Streamer -> Streamer) : M unit :=
  fun w => Ret tt (mkWorld (f (app w)) (early_exit w) (trace w) (log w)).

Definition LOG (s : severity) (msg : string) : M unit :=
  fun w => Ret tt (mkWorld (app w) (early_exit w) (trace w) (log w ++ [(s, msg)])).
Definition LOG_INFO := LOG INFO.
Definition LOG_ERROR := LOG ERROR.

Definition out_of_fuel {A} : M A := fun w => Timeout w.
Definition replaced {A} : M A := fun w => Replaced w.

Section Program.

Variable E : Env.

(** [exitHandler]: runs when SIGINT is delivered. *)
Definition exitHandler (w : World) : World :=
  mkWorld (app w) true (trace w) (log w ++ [(INFO, "Exiting..."%string)]).

(** Completing a call: the event joins the trace, and the handler runs if
    the signal came in meanwhile. *)
Definition emit (c : call) (r : reply) (w : World) : World :=
  let w' := mkWorld (app w) (early_exit w) (trace w ++ [Ev c r]) (log w) in
  if sigint E (trace w') then exitHandler w' else w'.

(** A system or library call with an integer result. *)
Definition syscall (c : call) : M Z :=
  fun w => let n := sys E (trace w) c in Ret n (emit c (r_int n) w).

(** read(fd, buffer + offset, count): the result and the bytes stored. *)
Definition sys_read (fd offset count : Z) : M (Z * list byte) :=
  fun w => match upstream E (trace w) fd count with
           | None => Ret (-1, []) (emit (c_read fd offset count) (r_int (-1)) w)
           | Some d =>
               let data := firstn (Z.to_nat count) d in
               Ret (Z.of_nat (List.length data), data)
                   (emit (c_read fd offset count) (r_data data) w)
           end.

(** An invocation through the Ice runtime.  Ice reports an invocation that
    failed by a C++ exception; Streamer.cpp has no try block, so the exception
    leaves every function of the file that is under way. *)
Definition ice_call (c : call) : M bool :=
  fun w => match ice E (trace w) c with
           | None => Throw (emit c r_throw w)
           | Some b => Ret b (emit c (r_int (if b then 1 else 0)) w)
           end.

(** Reading the global [early_exit].  The read is recorded in the trace, so
    that the trace shows where the program looked at the flag. *)
Definition read_early_exit : M bool :=
  fun w => let b := early_exit w in
           Ret b (emit c_early_exit (r_int (if b then 1 else 0)) w).

(** ** Streamer::Close *)

(** [while (!_clientList.empty())]: front, pop_front, close. *)
Fixpoint close_clients (l : list Z) : M unit :=
  match l with
  | [] => ret tt
  | clientSocket :: rest =>
      modify (set_clientList rest) ;;;
      syscall (c_close clientSocket) ;;;
      close_clients rest
  end.

Definition Close : M unit :=
  l <- get _clientList ;;
  close_clients l ;;;
  lfd <- get _listenSocketFd ;;
  (if lfd >? 0
   then syscall (c_shutdown lfd) ;;; syscall (c_close lfd) ;;; ret tt
   else ret tt) ;;;
  ffd <- get _ffmpegSocketFd ;;
  (if ffd >? 0
   then syscall (c_shutdown ffd) ;;; syscall (c_close ffd) ;;; ret tt
   else ret tt) ;;;
  p <- get _portal ;;
  (if p : bool
   then e <- get _streamEntry ;; ice_call (c_CloseStream e) ;;; ret tt
   else ret tt) ;;;
  pid <- get _ffmpegPid ;;
  if pid >? 0
  then LOG_INFO "Sending SIGTERM to ffmpeg..." ;;;
       syscall (c_kill pid SIGTERM) ;;;
       LOG_INFO "Waiting on ffmpeg to exit..." ;;;
       syscall c_wait ;;;
       ret tt
  else ret tt.

(** ** Streamer::Run *)

Definition sleepTime : Z := 20.
Definition tickTimer : Z := 30.

(** The lambda given to remove_if. *)
Definition send_to (buffer : list byte) (clientSocket : Z) : M bool :=
  n <- syscall (c_write clientSocket buffer BUFFER_SIZE) ;;
  if n <? 0
  then LOG_INFO ("Removing client fd " ++ to_string clientSocket
                 ++ " from client list") ;;;
       ret true
  else ret false.

(** std::list::remove_if: the predicate runs once on every element, in
    order; the elements it accepts are erased. *)
Fixpoint remove_if (pred : Z -> M bool) (l : list Z) : M (list Z) :=
  match l with
  | [] => ret []
  | x :: rest =>
      b <- pred x ;;
      rest' <- remove_if pred rest ;;
      ret (if b : bool then rest' else x :: rest')
  end.

(** Lines 318-328: send the buffer to all clients. *)
Definition broadcast (buffer : list byte) : M unit :=
  l <- get _clientList ;;
  l' <- remove_if (send_to buffer) l ;;
  modify (set_clientList l').

(** A read stores its bytes at [buffer + offset]; the model keeps the part
    of the array written so far. *)
Definition store (buffer : list byte) (offset : Z) (data : list byte) : list byte :=
  firstn (Z.to_nat offset) buffer ++ data.

(** Lines 300-316: [while (remaining > 0)].  [None] is a [return] from Run,
    [Some buffer] the end of the loop. *)
Fixpoint fill_buffer (fuel : nat) (buffer : list byte) (remaining : Z)
  : M (option (list byte)) :=
  match fuel with
  | O => out_of_fuel
  | S fuel' =>
      if remaining >? 0 then
        stop <- read_early_exit ;;
        if stop : bool then ret None
        else
          let offset := BUFFER_SIZE - remaining in
          ffd <- get _ffmpegSocketFd ;;
          r <- sys_read ffd offset remaining ;;
          let n := fst r in
          if n <? 0
          then LOG_ERROR "ffmpeg socket read failed" ;;; ret None
          else fill_buffer fuel' (store buffer offset (snd r)) (remaining - n)
      else ret (Some buffer)
  end.

(** Lines 298-334: the inner [while (true)].  [true] is the [break], [false]
    a [return] from Run. *)
Fixpoint send_loop (fuel : nat) (timeBeforeTick : Z) : M bool :=
  match fuel with
  | O => out_of_fuel
  | S fuel' =>
      r <- fill_buffer fuel' [] BUFFER_SIZE ;;
      match r with
      | None => ret false
      | Some buffer =>
          broadcast buffer ;;;
          now <- syscall c_getMSTime ;;
          if now - timeBeforeTick >? tickTimer then ret true
          else send_loop fuel' timeBeforeTick
      end
  end.

(** Lines 284-290: periodically accept new clients. *)
Definition accept_client : M unit :=
  lfd <- get _listenSocketFd ;;
  clientSocket <- syscall (c_accept4 lfd) ;;
  if clientSocket >? 0
  then l <- get _clientList ;;
       modify (set_clientList (l ++ [clientSocket])) ;;;
       LOG_INFO ("Accepted new client, fd " ++ to_string clientSocket)
  else ret tt.

(** One pass of the outer [while (true)] (lines 284-334). *)
Definition cycle (fuel : nat) : M bool :=
  accept_client ;;;
  syscall (c_usleep (sleepTime * 1000)) ;;;
  timeBeforeTick <- syscall c_getMSTime ;;
  send_loop fuel timeBeforeTick.

Fixpoint Run_loop (fuel : nat) : M unit :=
  match fuel with
  | O => out_of_fuel
  | S fuel' =>
      again <- cycle fuel' ;;
      if again : bool then Run_loop fuel' else ret tt
  end.

Definition Run (fuel : nat) : M unit :=
  LOG_INFO "Streamer ready" ;;;
  Run_loop fuel.

(** ** Streamer::Initialize *)

(** Lines 220-234.  [true] is the [break], [false] the [return false]. *)
Fixpoint connect_retry (fuel : nat) (ffd port : Z) : M bool :=
  match fuel with
  | O => out_of_fuel
  | S fuel' =>
      stop <- read_early_exit ;;
      if stop : bool
      then LOG_INFO "Exiting early..." ;;; ret false
      else
        error <- syscall (c_connect ffd port) ;;
        if error >=? 0 then ret true
        else syscall (c_usleep (500 * 1000)) ;;; connect_retry fuel' ffd port
  end.

(** Lines 147-179, the block "open listen port".  [false] is one of its
    [return false]. *)
Definition open_listen_port : M bool :=
  LOG_INFO "Setting up listen socket..." ;;;
  lfd <- syscall (c_socket true) ;;
  modify (set_listenSocketFd lfd) ;;;
  if lfd <? 0 then LOG_ERROR "Failed to initialize listen socket" ;;; ret false
  else
    listenPort <- get _listenPort ;;
    r <- syscall (c_bind lfd (htons_port listenPort)) ;;
    if r <? 0 then LOG_ERROR "Failed to bind listen socket" ;;; ret false
    else
      r <- syscall (c_listen lfd LISTEN_BACKLOG) ;;
      if r <? 0 then LOG_ERROR "Failed to open listen socket" ;;; ret false
      else
        syscall (c_setsockopt lfd) ;;;
        ret true.

(** Line 203: the child runs the script; execlp comes back only when it
    failed, and the child then goes on with the code of the parent. *)
Definition exec_ffmpeg (endpoint : string) : M unit :=
  path <- get _videoFilePath ;;
  e <- get _streamEntry ;;
  r <- syscall (c_execlp "./streamer_ffmpeg.sh"
          ["streamer_ffmpeg.sh"%string; path; endpoint; videoSize e; bitRate e]) ;;
  if r <? 0 then ret tt else replaced.

(** Lines 193-209: fork, and the script in the child. *)
Definition fork_ffmpeg (endpoint : string) : M unit :=
  pid <- syscall c_fork ;;
  modify (set_ffmpegPid pid) ;;;
  if pid =? 0 then exec_ffmpeg endpoint else ret tt.

(** Lines 181-235, the block "start ffmpeg, wait for open port".  [false] is
    the [return false] of its loop.  gethostbyname is given the literal
    "127.0.0.1" and resolves it without a call to the outside. *)
Definition start_ffmpeg (fuel : nat) : M bool :=
  let ffmpegHost := "127.0.0.1"%string in
  transport <- get _transport ;;
  ffmpegPort <- get _ffmpegPort ;;
  let endpoint :=
    (transport ++ "://" ++ ffmpegHost ++ ":" ++ to_string ffmpegPort)%string in
  LOG_INFO "Starting and connecting to ffmpeg..." ;;;
  fork_ffmpeg endpoint ;;;
  ffd <- syscall (c_socket false) ;;
  modify (set_ffmpegSocketFd ffd) ;;;
  connect_retry fuel ffd (htons_port ffmpegPort).

Definition Initialize (fuel : nat) : M bool :=
  p <- ice_call c_portal ;;
  modify (set_portal p) ;;;
  if negb p then LOG_ERROR "failed to find portal" ;;; ret false
  else
    listening <- open_listen_port ;;
    if listening : bool then
      connected <- start_ffmpeg fuel ;;
      if connected : bool
      then e <- get _streamEntry ;;
           ice_call (c_NewStream e) ;;;
           ret true
      else ret false
    else ret false.

(** ** Streamer::run *)

Definition PrintUsage : M unit :=
  LOG_INFO "Usage: ./streamer $video_file $stream_name [options]" ;;;
  LOG_INFO "Options:" ;;;
  LOG_INFO "'--transport $trans' sets endpoint transport protocol, tcp by default" ;;;
  LOG_INFO "'--host $host' sets endpoint host, localhost by default" ;;;
  LOG_INFO "'--port $port' specifies listen port, 9600 by default" ;;;
  LOG_INFO "'--ffmpeg_port $port' sets port for ffmpeg instance, 9601 by default" ;;;
  LOG_INFO "'--video_size $size' specifies video size, 480x270 by default" ;;;
  LOG_INFO "'--bit_rate $rate' sets video bit rate, 400k by default" ;;;
  LOG_INFO "'--keywords $key1,$key2...,$keyn' adds search keywords to stream".

(** The local variables of run that the option loop assigns. *)
Record Locals := mkLocals {
  l_videoSize : string;
  l_bitRate : string;
  l_keywords : string
}.

(** Lines 78-93: the chain of comparisons on one option and its value. *)
Definition apply_option (option arg : string) (loc : Locals) : M Locals :=
  if String.eqb option "--transport" then
    modify (set_transport arg) ;;; ret loc
  else if String.eqb option "--host" then
    modify (set_host arg) ;;; ret loc
  else if String.eqb option "--port" then
    modify (set_listenPort (atoi arg)) ;;; ret loc
  else if String.eqb option "--ffmpeg_port" then
    modify (set_ffmpegPort (atoi arg)) ;;; ret loc
  else if String.eqb option "--video_size" then
    ret (mkLocals arg (l_bitRate loc) (l_keywords loc))
  else if String.eqb option "--bit_rate" then
    ret (mkLocals (l_videoSize loc) arg (l_keywords loc))
  else if String.eqb option "--keywords" then
    ret (mkLocals (l_videoSize loc) (l_bitRate loc) arg)
  else
    LOG_INFO ("Unrecognized option '" ++ option ++ "', skipping") ;;;
    ret loc.

(** Lines 64-94: [for (int i = 3; i < argc; ++i)], with [todo = argc - i]
    passes left.  [None] is the [return 1] inside the loop. *)
Fixpoint parse_options (todo : nat) (i : nat) (argv : list string) (loc : Locals)
  : M (option Locals) :=
  match todo with
  | O => ret (Some loc)
  | S todo' =>
      let option := nth i argv ""%string in
      (* all options have a following arg *)
      if (List.length argv <=? i + 1)%nat
      then LOG_INFO ("Missing argument after option " ++ option) ;;; ret None
      else
        let arg := nth (i + 1) argv ""%string in
        loc' <- apply_option option arg loc ;;
        parse_options todo' (i + 1)%nat argv loc'
  end.

Definition run (fuel : nat) (argv : list string) : M Z :=
  let argc := List.length argv in
  if (argc <? 3)%nat then PrintUsage ;;; ret 1
  else
    modify (set_videoFilePath (nth 1 argv ""%string)) ;;;
    let streamName := nth 2 argv ""%string in
    modify (set_transport "tcp") ;;;
    modify (set_host "localhost") ;;;
    modify (set_listenPort 9600) ;;;
    modify (set_ffmpegPort 9601) ;;;
    parsed <- parse_options (argc - 3) 3 argv (mkLocals "480x270" "400k" "") ;;
    match parsed with
    | None => ret 1
    | Some loc =>
        transport <- get _transport ;;
        host <- get _host ;;
        listenPort <- get _listenPort ;;
        let endpoint :=
          (transport ++ "://" ++ host ++ ":" ++ to_string listenPort)%string in
        old <- get _streamEntry ;;
        modify (set_streamEntry
                  (mkStreamEntry streamName endpoint (l_videoSize loc) (l_bitRate loc)
                     (keyword old ++ getline_loop (l_keywords loc) "" false))) ;;;
        ok <- Initialize fuel ;;
        exitCode <-
          (if ok : bool then Run fuel ;;; ret 0
           else LOG_ERROR "Streamer initialization failed" ;;; ret 1) ;;
        Close ;;;
        ret exitCode
    end.

End Program.

(** * Vocabulary of the statements *)

(** ** Broadcast *)

(** The write events of one pass over the clients [l] with results [rs]. *)
Definition write_events (buffer : list byte) (l rs : list Z) : list event :=
  map (fun p => Ev (c_write (fst p) buffer BUFFER_SIZE) (r_int (snd p)))
      (combine l rs).

(** The clients whose write did not return a negative value. *)
Definition survivors (l rs : list Z) : list Z :=
  map fst (filter (fun p => negb (snd p <? 0)) (combine l rs)).

(** A chunk of 256 zero bytes, and an object before run. *)
Definition chunk0 : list byte := repeat "000"%byte 256.

Definition init_streamer : Streamer :=
  mkStreamer "" "" "" 0 0 (mkStreamEntry "" "" "" "" []) false 0 0 0 [].

(** Two clients, 4 and 5; the write to 4 is partial (100 bytes of 256), the
    write to 5 fails. *)
Definition two_clients : World :=
  mkWorld (set_clientList [4; 5] init_streamer) false [] [].

Definition env_partial_write : Env :=
  mkEnv (fun _ c => match c with
                    | c_write 4 _ _ => 100
                    | c_write _ _ _ => -1
                    | _ => 0
                    end)
        (fun _ _ _ => Some [])
        (fun _ _ => Some true)
        (fun _ => false).

(** ** Assembling a chunk *)

Definition flag_event (b : bool) : event :=
  Ev c_early_exit (r_int (if b then 1 else 0)).

(** The events of a read loop that runs to its end from [remaining] bytes
    to go, and the bytes it gathered: before every read the flag is found
    clear, every read stores some part of what is left. *)
Inductive fill_events (fd : Z) : Z -> list event -> list byte -> Prop :=
| fill_done : fill_events fd 0 [] []
| fill_read remaining data evs rest :
    0 < remaining ->
    Z.of_nat (List.length data) <= remaining ->
    fill_events fd (remaining - Z.of_nat (List.length data)) evs rest ->
    fill_events fd remaining
      (flag_event false
       :: Ev (c_read fd (BUFFER_SIZE - remaining) remaining) (r_data data)
       :: evs)
      (data ++ rest).

(** The events of a read loop that leaves Run: after some reads the flag is
    found set, or a read fails. *)
Inductive halted_fill (fd : Z) : Z -> list event -> Prop :=
| halt_cancelled remaining :
    0 < remaining -> halted_fill fd remaining [flag_event true]
| halt_failed remaining :
    0 < remaining ->
    halted_fill fd remaining
      [flag_event false;
       Ev (c_read fd (BUFFER_SIZE - remaining) remaining) (r_int (-1))]
| halt_read remaining data evs :
    0 < remaining ->
    Z.of_nat (List.length data) <= remaining ->
    halted_fill fd (remaining - Z.of_nat (List.length data)) evs ->
    halted_fill fd remaining
      (flag_event false
       :: Ev (c_read fd (BUFFER_SIZE - remaining) remaining) (r_data data)
       :: evs).

(** An upstream at end of stream: every read returns 0; no signal comes. *)
Definition env_eof : Env :=
  mkEnv (fun _ _ => 0) (fun _ _ _ => Some []) (fun _ _ => Some true)
        (fun _ => false).

Definition idle_world : World := mkWorld init_streamer false [] [].

(** ** The relay cycle *)

(** One round of the inner loop over the clients [l]: a full chunk is read,
    written to every client, then the clock is read, giving [now]. *)
Inductive round (fd : Z) (l : list Z) : list event -> list Z -> Z -> Prop :=
| round_intro reads chunk rs now :
    fill_events fd BUFFER_SIZE reads chunk ->
    List.length rs = List.length l ->
    round fd l
      (reads ++ write_events chunk l rs ++ [Ev c_getMSTime (r_int now)])
      (survivors l rs) now.

(** The inner loop of a cycle whose clock read [t0] before it: rounds that
    end within the tick budget, then either the first round that ends past
    it (the break, [true]) or a read loop that leaves Run ([false]). *)
Inductive burst (fd t0 : Z) : list Z -> list event -> bool -> list Z -> Prop :=
| burst_break l evs l' now :
    round fd l evs l' now ->
    now - t0 > tickTimer ->
    burst fd t0 l evs true l'
| burst_more l evs1 l1 now evs2 b l2 :
    round fd l evs1 l1 now ->
    now - t0 <= tickTimer ->
    burst fd t0 l1 evs2 b l2 ->
    burst fd t0 l (evs1 ++ evs2) b l2
| burst_halt l evs :
    halted_fill fd BUFFER_SIZE evs ->
    burst fd t0 l evs false l.

(** The client list after the accept step. *)
Definition accepted (clientSocket : Z) (l : list Z) : list Z :=
  if clientSocket >? 0 then l ++ [clientSocket] else l.

(** A relay at work: accept finds client 7, every read delivers a full
    chunk, every write succeeds, and the clock advances by 5 ms per call
    of the process. *)
Definition env_steady : Env :=
  mkEnv (fun h c => match c with
                    | c_accept4 _ => 7
                    | c_getMSTime => 5 * Z.of_nat (List.length h)
                    | c_write _ _ _ => 256
                    | _ => 0
                    end)
        (fun _ _ _ => Some chunk0)
        (fun _ _ => Some true)
        (fun _ => false).

Definition serving : World :=
  mkWorld (set_ffmpegSocketFd 4 (set_listenSocketFd 3 init_streamer)) false [] [].

(** The transcoder goes away after the first chunk: accept finds client 7,
    the first read delivers a full chunk and every later read fails; the
    clock advances by 5 ms per call of the process. *)
Definition env_upstream_lost : Env :=
  mkEnv (fun h c => match c with
                    | c_accept4 _ => 7
                    | c_getMSTime => 5 * Z.of_nat (List.length h)
                    | c_write _ _ _ => 256
                    | _ => 0
                    end)
        (fun h _ _ => if (List.length h <? 6)%nat then Some chunk0 else None)
        (fun _ _ => Some true)
        (fun _ => false).

(** ** The connect-retry loop *)

(** The events of a connect loop that ends: attempts that fail, each after a
    check that found the flag clear and each followed by the 500 ms sleep;
    then a check that finds the flag set ([false]) or a check and an attempt
    that connects ([true]). *)
Inductive retry_events (fd port : Z) : list event -> bool -> Prop :=
| retry_cancelled :
    retry_events fd port [flag_event true] false
| retry_connected r :
    r >= 0 ->
    retry_events fd port [flag_event false; Ev (c_connect fd port) (r_int r)] true
| retry_again r s evs b :
    r < 0 ->
    retry_events fd port evs b ->
    retry_events fd port
      (flag_event false :: Ev (c_connect fd port) (r_int r)
       :: Ev (c_usleep 500000) (r_int s) :: evs) b.

(** The value of [early_exit] after the events [evs] have followed the
    history [h]: set once the handler ran. *)
Fixpoint flag_after (E : Env) (h : list event) (flag : bool) (evs : list event)
  : bool :=
  match evs with
  | [] => flag
  | e :: evs' => flag_after E (h ++ [e]) (flag || sigint E (h ++ [e])) evs'
  end.



Definition count_calls (p : call -> bool) (evs : list event) : nat :=
  List.length (filter (fun e => p (ev_call e)) evs).


(** The flag is already set. *)
Definition flagged : World := mkWorld init_streamer true [] [].

(** ** Cleanup *)

Definition close_events (l rs : list Z) : list event :=
  map (fun p => Ev (c_close (fst p)) (r_int (snd p))) (combine l rs).

(** The calls of Close on the two sockets of the object, on the portal and
    on the transcoder, as the member variables [s] command them. *)
Definition socket_calls (s : Streamer) : list call :=
  (if _listenSocketFd s >? 0
   then [c_shutdown (_listenSocketFd s); c_close (_listenSocketFd s)] else [])
  ++ (if _ffmpegSocketFd s >? 0
      then [c_shutdown (_ffmpegSocketFd s); c_close (_ffmpegSocketFd s)] else []).

Definition deregister_calls (s : Streamer) : list call :=
  if _portal s then [c_CloseStream (_streamEntry s)] else [].

Definition reap_calls (s : Streamer) : list call :=
  if _ffmpegPid s >? 0 then [c_kill (_ffmpegPid s) SIGTERM; c_wait] else [].

(** A streamer in service: listen socket 3, upstream socket 4, transcoder
    77, one client 7, registered with the portal. *)
Definition entry0 : StreamEntry :=
  mkStreamEntry "name" "tcp://localhost:9600" "480x270" "400k" [].

Definition in_service : World :=
  mkWorld (mkStreamer "v.mp4" "tcp" "localhost" 9600 9601 entry0 true 3 4 77 [7])
          false [] [].

(** Every call succeeds. *)
Definition env_ok : Env :=
  mkEnv (fun _ _ => 0) (fun _ _ _ => Some chunk0) (fun _ _ => Some true)
        (fun _ => false).

(** The portal has gone away: CloseStream raises. *)
Definition env_portal_down : Env :=
  mkEnv (fun _ _ => 0) (fun _ _ _ => Some chunk0)
        (fun _ c => match c with c_CloseStream _ => None | _ => Some true end)
        (fun _ => false).

(** ** Which calls a piece of the program makes *)

(** [within p Q m]: whatever the world and however [m] ends, the calls [m]
    added to the trace all satisfy [p], and the object went from [s] to an
    [s'] with [Q s s']. *)
Definition within {A} (p : call -> bool) (Q : Streamer -> Streamer -> Prop)
    (m : M A) : Prop :=
  forall w, exists evs,
    trace (world_of (m w)) = trace w ++ evs /\
    Forall (fun e => p (ev_call e) = true) evs /\
    Q (app w) (app (world_of (m w))).

(** Only the client list differs. *)
Definition same_handles (s s' : Streamer) : Prop :=
  s' = set_clientList (_clientList s') s.

(** The calls of Run. *)
Definition relay_call (c : call) : bool :=
  match c with
  | c_accept4 _ | c_usleep _ | c_getMSTime | c_early_exit
  | c_read _ _ _ | c_write _ _ _ => true
  | _ => false
  end.

Definition is_CloseStream (c : call) : bool :=
  match c with c_CloseStream _ => true | _ => false end.

Definition is_NewStream (c : call) : bool :=
  match c with c_NewStream _ => true | _ => false end.

Definition is_kill (c : call) : bool :=
  match c with c_kill _ _ => true | _ => false end.

(** The lookup of the portal gave a proxy that is not null. *)
Definition portal_found (evs : list event) : bool :=
  existsb (fun e => match ev_call e, ev_reply e with
                    | c_portal, r_int n => n =? 1
                    | _, _ => false
                    end) evs.

(** ** Initialization *)

(** The portal proxy held by the object is the same. *)
Definition keep_portal (s s' : Streamer) : Prop := _portal s' = _portal s.

(** The calls of the block that opens the listen socket. *)
Definition listen_call (c : call) : bool :=
  match c with
  | c_socket true | c_bind _ _ | c_listen _ _ | c_setsockopt _ => true
  | _ => false
  end.

(** The calls of the block that starts the transcoder. *)
Definition ffmpeg_call (c : call) : bool :=
  match c with
  | c_fork | c_execlp _ _ | c_socket false | c_early_exit
  | c_connect _ _ | c_usleep _ => true
  | _ => false
  end.

Definition is_execlp (c : call) : bool :=
  match c with c_execlp _ _ => true | _ => false end.

(** The calls of Initialize after the lookup of the portal, and of Close. *)
Definition init_call (c : call) : bool :=
  (listen_call c || ffmpeg_call c || is_NewStream c)%bool.

Definition cleanup_call (c : call) : bool :=
  match c with
  | c_close _ | c_shutdown _ | c_CloseStream _ | c_kill _ _ | c_wait => true
  | _ => false
  end.

Definition portal_event (p : bool) : event :=
  Ev c_portal (r_int (if p then 1 else 0)).

(** The command line of the scenario with defaults. *)
Definition argv_defaults : list string :=
  ["streamer"; "video.mp4"; "name"]%string.

(** The transcoder (77) never listens, and SIGINT arrives during the first
    backoff sleep. *)
Definition env_never_ready : Env :=
  mkEnv (fun _ c => match c with
                    | c_fork => 77
                    | c_socket true => 3
                    | c_socket false => 4
                    | c_connect _ _ => -1
                    | _ => 0
                    end)
        (fun _ _ _ => Some chunk0)
        (fun _ _ => Some true)
        (fun h => (List.length h =? 10)%nat).

(** fork fails; something else listens on the transcoder port, so that the
    first connect succeeds; SIGINT arrives during the first sleep of Run. *)
Definition env_fork_fails : Env :=
  mkEnv (fun _ c => match c with
                    | c_fork => -1
                    | c_socket true => 3
                    | c_socket false => 4
                    | _ => 0
                    end)
        (fun _ _ _ => Some chunk0)
        (fun _ _ => Some true)
        (fun h => (List.length h =? 12)%nat).

(** A run with the defaults that is cancelled: the transcoder is 77, the
    listen socket 3, the upstream socket 4, and SIGINT arrives during the
    first sleep of Run. *)
Definition env_cancelled : Env :=
  mkEnv (fun _ c => match c with
                    | c_fork => 77
                    | c_socket true => 3
                    | c_socket false => 4
                    | _ => 0
                    end)
        (fun _ _ _ => Some chunk0)
        (fun _ _ => Some true)
        (fun h => (List.length h =? 12)%nat).

(** ** The further statements *)

(** An event that makes Run return: the flag found set, or a read that
    failed. *)
Definition halting (e : event) : Prop :=
  e = flag_event true \/
  exists fd offset count, e = Ev (c_read fd offset count) (r_int (-1)).

(** The tokens put back together, each one followed by a comma. *)
Fixpoint terminated (tokens : list string) : string :=
  match tokens with
  | [] => ""%string
  | t :: rest => (t ++ "," ++ terminated rest)%string
  end.

(** getline leaves a token under way at the end of the stream: the last
    character was not a comma. *)
Fixpoint pending (ss : string) (extracted : bool) : bool :=
  match ss with
  | EmptyString => extracted
  | String c ss' => pending ss' (negb (Ascii.eqb c ","))
  end.

Fixpoint has_comma (s : string) : bool :=
  match s with
  | EmptyString => false
  | String c s' => (Ascii.eqb c "," || has_comma s')%bool
  end.

(** The descriptor that run builds from a command line without options. *)
Definition default_entry (argv : list string) (old : StreamEntry) : StreamEntry :=
  mkStreamEntry (nth 2 argv ""%string) "tcp://localhost:9600" "480x270" "400k"
                (keyword old).

(** The call that starts the script, as line 203 writes it. *)
Definition exec_call (s : Streamer) : call :=
  c_execlp "./streamer_ffmpeg.sh"
    ["streamer_ffmpeg.sh"%string; _videoFilePath s;
     (_transport s ++ "://127.0.0.1:" ++ to_string (_ffmpegPort s))%string;
     videoSize (_streamEntry s); bitRate (_streamEntry s)].

(** The portal is not there: the lookup gives a null proxy. *)
Definition env_no_portal : Env :=
  mkEnv (fun _ _ => 0) (fun _ _ _ => Some chunk0) (fun _ _ => Some false)
        (fun _ => false).

(** The upstream fails at the first read. *)
Definition env_read_fails : Env :=
  mkEnv (fun _ _ => 0) (fun _ _ _ => None) (fun _ _ => Some true)
        (fun _ => false).

(** The calls of the connect loop. *)
Definition retry_call (c : call) : bool :=
  match c with
  | c_early_exit | c_connect _ _ | c_usleep _ => true
  | _ => false
  end.

(** The process identifier held by the object is the same. *)
Definition keep_pid (s s' : Streamer) : Prop := _ffmpegPid s' = _ffmpegPid s.

(** What run has set in the object when it calls Initialize, on a command
    line without options. *)
Definition configured (argv : list string) (w : World) : World :=
  mkWorld
    (set_streamEntry (default_entry argv (_streamEntry (app w)))
       (set_ffmpegPort 9601
          (set_listenPort 9600
             (set_host "localhost"
                (set_transport "tcp"
                   (set_videoFilePath (nth 1 argv ""%string) (app w)))))))
    (early_exit w) (trace w) (log w).

(** The descriptor held by the object is the same. *)
Definition keep_entry (s s' : Streamer) : Prop := _streamEntry s' = _streamEntry s.

Definition any_call (c : call) : bool := true.

(** [keeps_flag m]: a flag that is set when [m] starts is set when [m] ends,
    however it ends. *)
Definition keeps_flag {A} (m : M A) : Prop :=
  forall w, early_exit w = true -> early_exit (world_of (m w)) = true.

(** A write that returned a negative value. *)
Definition failed_write (e : event) : bool :=
  match ev_call e, ev_reply e with
  | c_write _ _ _, r_int n => n <? 0
  | _, _ => false
  end.

(** An accept4 that returned a client socket the relay keeps. *)
Definition client_accepted (e : event) : bool :=
  match ev_call e, ev_reply e with
  | c_accept4 _, r_int n => n >? 0
  | _, _ => false
  end.

(** How many events of [evs] satisfy [p]. *)
Definition tally (p : event -> bool) (evs : list event) : nat :=
  List.length (filter p evs).

(** One client (8) arrives, the first chunk is read in full, both writes
    fail, and the next read fails. *)
Definition env_churn : Env :=
  mkEnv (fun _ c => match c with
                    | c_accept4 _ => 8
                    | c_write _ _ _ => -1
                    | _ => 0
                    end)
        (fun h _ _ => if (List.length h <? 6)%nat then Some chunk0 else None)
        (fun _ _ => Some true)
        (fun _ => false).


(** * Properties *)

Arguments emit : simpl never.
Arguments to_string : simpl never.

Ltac msimpl :=
  cbv beta iota zeta delta
    [bind ret get modify LOG LOG_INFO LOG_ERROR syscall read_early_exit
     out_of_fuel replaced];
  cbn [world_of trace app early_exit log fst snd].

(** atoi on values inside and outside int. *)
Example atoi_values :
  atoi " -42x"%string = -42 /\
  atoi "9700"%string = 9700 /\
  atoi "2147483648"%string = -2147483648 /\
  atoi "99999999999999999999"%string = -1 /\
  atoi "port"%string = 0.
Proof. vm_compute. repeat split; reflexivity. Qed.

Section Facts.

Variable E : Env.

(** ** The plumbing *)

Lemma trace_emit c r w : trace (emit E c r w) = trace w ++ [Ev c r].
Proof. unfold emit; simpl. destruct (sigint E _); reflexivity. Qed.

Lemma app_emit c r w : app (emit E c r w) = app w.
Proof. unfold emit; simpl. destruct (sigint E _); reflexivity. Qed.

Lemma early_exit_emit c r w :
  early_exit (emit E c r w) = (early_exit w || sigint E (trace w ++ [Ev c r]))%bool.
Proof.
  unfold emit; simpl. destruct (sigint E _); simpl.
  - now rewrite orb_true_r.
  - now rewrite orb_false_r.
Qed.

(** ** Broadcast *)

Lemma remove_if_send_to buffer l :
  forall w, exists rs w',
    remove_if (send_to E buffer) l w = Ret (survivors l rs) w' /\
    List.length rs = List.length l /\
    trace w' = trace w ++ write_events buffer l rs /\
    app w' = app w.
Proof.
  induction l as [|x l IH]; intros w.
  - exists [], w. msimpl. now rewrite app_nil_r.
  - cbn [remove_if]. unfold send_to at 1. msimpl.
    set (n := sys E (trace w) (c_write x buffer BUFFER_SIZE)).
    destruct (n <? 0) eqn:Hn; msimpl;
      match goal with |- context [remove_if _ l ?w1] =>
        destruct (IH w1) as (rs & w' & R & L & T & A); rewrite R end;
      exists (n :: rs), w'; unfold survivors, write_events; simpl; rewrite Hn;
      simpl; (repeat split; [congruence|..]);
      rewrite ?T, ?A; msimpl; rewrite ?trace_emit, ?app_emit, <- ?app_assoc;
      reflexivity.
Qed.

Lemma broadcast_spec buffer w :
  exists rs w',
    broadcast E buffer w = Ret tt w' /\
    List.length rs = List.length (_clientList (app w)) /\
    trace w' = trace w ++ write_events buffer (_clientList (app w)) rs /\
    app w' = set_clientList (survivors (_clientList (app w)) rs) (app w).
Proof.
  unfold broadcast. msimpl.
  destruct (remove_if_send_to buffer (_clientList (app w)) w)
    as (rs & w' & R & L & T & A).
  rewrite R. msimpl. eexists rs, _. repeat split; auto.
  msimpl. now rewrite A.
Qed.

(** C1, as the code has it: broadcast writes the buffer once to every client,
    in list order, whatever the writes return; the clients whose write
    returned a negative value are erased from the list in that pass, and all
    the others, a partial write included, stay in the list in their order. *)
Theorem broadcast_prunes_negative_writes (buffer : list byte) (w : World) :
  exists rs w',
    broadcast E buffer w = Ret tt w' /\
    List.length rs = List.length (_clientList (app w)) /\
    trace w' = trace w ++ write_events buffer (_clientList (app w)) rs /\
    _clientList (app w') = survivors (_clientList (app w)) rs.
Proof.
  destruct (broadcast_spec buffer w) as (rs & w' & R & L & T & A).
  exists rs, w'. repeat split; auto. now rewrite A.
Qed.

End Facts.

(** C1 as stated fails: after one pass client 4, whose write was partial, is
    still in the list, and client 5, whose write failed, was erased by a pass
    that made two calls, both writes, and no close. *)
Lemma broadcast_partial_write_kept_and_no_close :
  let w' := world_of (broadcast env_partial_write chunk0 two_clients) in
  _clientList (app w') = [4] /\
  trace w' = [Ev (c_write 4 chunk0 256) (r_int 100);
              Ev (c_write 5 chunk0 256) (r_int (-1))].
Proof. vm_compute. split; reflexivity. Qed.

Section ReadLoop.

Variable E : Env.

Lemma fill_events_length fd remaining evs data :
  fill_events fd remaining evs data -> Z.of_nat (List.length data) = remaining.
Proof.
  induction 1 as [|remaining data evs rest Hpos Hle _ IH]; [reflexivity|].
  rewrite length_app, Nat2Z.inj_add. lia.
Qed.

Lemma length_firstn_le (d : list byte) (count : Z) :
  Z.of_nat (List.length (firstn (Z.to_nat count) d)) <= Z.max 0 count.
Proof. rewrite length_firstn. lia. Qed.

Lemma store_at_end (buffer data : list byte) (offset : Z) :
  Z.of_nat (List.length buffer) = offset -> store buffer offset data = buffer ++ data.
Proof.
  intros H. unfold store. rewrite firstn_all2; [reflexivity|lia].
Qed.

(** What the read loop does when it ends. *)
Lemma fill_buffer_spec fuel :
  forall buffer remaining w,
    0 <= remaining ->
    Z.of_nat (List.length buffer) = BUFFER_SIZE - remaining ->
    match fill_buffer E fuel buffer remaining w with
    | Ret (Some b) w' =>
        exists evs data,
          trace w' = trace w ++ evs /\
          fill_events (_ffmpegSocketFd (app w)) remaining evs data /\
          b = buffer ++ data /\ app w' = app w
    | Ret None w' =>
        exists evs,
          trace w' = trace w ++ evs /\
          halted_fill (_ffmpegSocketFd (app w)) remaining evs /\
          app w' = app w
    | Throw _ | Replaced _ => False
    | Timeout _ => True
    end.
Proof.
  induction fuel as [|fuel IH]; intros buffer remaining w Hrem Hlen; [exact I|].
  cbn [fill_buffer]. destruct (remaining >? 0) eqn:Hpos.
  2:{ msimpl. exists [], []. assert (remaining = 0) by lia. subst.
      rewrite !app_nil_r. repeat split; constructor. }
  apply Z.gtb_lt in Hpos. msimpl.
  destruct (early_exit w) eqn:Hflag.
  { msimpl. exists [flag_event true]. rewrite trace_emit, app_emit.
    repeat split. now constructor. }
  unfold sys_read. msimpl. rewrite !app_emit, !trace_emit.
  set (ffd := _ffmpegSocketFd (app w)).
  set (w0 := emit E c_early_exit (r_int 0) w).
  assert (T0 : trace w0 = trace w ++ [flag_event false]) by apply trace_emit.
  assert (A0 : app w0 = app w) by apply app_emit.
  destruct (upstream E _ ffd remaining) as [d|] eqn:Hup.
  2:{ msimpl. eexists. rewrite trace_emit, app_emit, T0, A0.
      rewrite <- app_assoc. repeat split. now constructor. }
  msimpl. set (data := firstn (Z.to_nat remaining) d).
  assert (Hd : Z.of_nat (List.length data) <= remaining).
  { pose proof (length_firstn_le d remaining) as H. fold data in H. lia. }
  destruct (Z.of_nat (List.length data) <? 0) eqn:Hneg; [lia|].
  rewrite store_at_end by lia.
  match goal with |- context [fill_buffer E fuel ?b ?r ?w1] =>
    specialize (IH b r w1); set (w1' := w1) in * end.
  assert (T1 : trace w1' = trace w ++ [flag_event false;
             Ev (c_read ffd (BUFFER_SIZE - remaining) remaining) (r_data data)]).
  { unfold w1'. rewrite trace_emit, T0. now rewrite <- app_assoc. }
  assert (A1 : app w1' = app w) by (unfold w1'; now rewrite app_emit).
  assert (L1 : Z.of_nat (List.length (buffer ++ data)) =
               BUFFER_SIZE - (remaining - Z.of_nat (List.length data)))
    by (rewrite length_app, Nat2Z.inj_add; lia).
  destruct (fill_buffer E fuel (buffer ++ data)
              (remaining - Z.of_nat (List.length data)) w1')
    as [[b|] w'| | |]; auto; try (apply IH; [lia|exact L1]).
  - destruct IH as (evs & rest & T & F & B & A); [lia|exact L1|].
    rewrite A1 in F; fold ffd in F.
    exists (flag_event false
            :: Ev (c_read ffd (BUFFER_SIZE - remaining) remaining) (r_data data)
            :: evs), (data ++ rest).
    repeat split;
      [rewrite T, T1, <- app_assoc; reflexivity
      |now constructor
      |now rewrite B, <- app_assoc
      |congruence].
  - destruct IH as (evs & T & F & A); [lia|exact L1|].
    rewrite A1 in F; fold ffd in F.
    exists (flag_event false
            :: Ev (c_read ffd (BUFFER_SIZE - remaining) remaining) (r_data data)
            :: evs).
    repeat split; [rewrite T, T1, <- app_assoc; reflexivity|now constructor|congruence].
Qed.

(** The part of C2 that holds: a buffer that leaves the read loop is full. *)
Lemma fill_buffer_all_or_nothing fuel w b w' :
  fill_buffer E fuel [] BUFFER_SIZE w = Ret (Some b) w' ->
  Z.of_nat (List.length b) = BUFFER_SIZE.
Proof.
  intros H. pose proof (fill_buffer_spec fuel [] BUFFER_SIZE w) as S.
  rewrite H in S. destruct S as (evs & data & _ & F & B & _); [easy|easy|].
  subst b. simpl. eapply fill_events_length; eauto.
Qed.

(** C2 fails at end of stream: read returns 0, which is not negative, so the
    loop asks again with [remaining] unchanged; unless the flag is set it
    never returns, whatever the fuel. *)
Theorem fill_buffer_spins_at_end_of_stream :
  (forall h fd n, upstream E h fd n = Some []) ->
  (forall h, sigint E h = false) ->
  forall fuel buffer remaining w,
    0 < remaining -> early_exit w = false ->
    exists w',
      fill_buffer E fuel buffer remaining w = Timeout w' /\
      early_exit w' = false /\
      trace w' = trace w ++
        List.concat
          (repeat [flag_event false;
                   Ev (c_read (_ffmpegSocketFd (app w))
                         (BUFFER_SIZE - remaining) remaining) (r_data [])]
                  fuel).
Proof.
  intros Heof Hsig. induction fuel as [|fuel IH]; intros buffer remaining w Hpos Hflag.
  - exists w. msimpl. cbn. rewrite app_nil_r. auto.
  - cbn [fill_buffer]. apply Z.gtb_lt in Hpos as Hgt. rewrite Hgt. msimpl.
    rewrite Hflag. unfold sys_read. msimpl. rewrite Heof. msimpl.
    rewrite firstn_nil. cbn [List.length Z.of_nat Z.ltb Z.compare].
    rewrite Z.sub_0_r.
    match goal with |- context [fill_buffer E fuel ?b remaining ?w1] =>
      destruct (IH b remaining w1 Hpos) as (w' & R & F & T) end.
    { rewrite !early_exit_emit, Hflag, !Hsig. reflexivity. }
    exists w'. rewrite R. repeat split; auto.
    rewrite T, !trace_emit, !app_emit. cbn [repeat List.concat].
    rewrite <- !app_assoc. reflexivity.
Qed.

End ReadLoop.

Lemma fill_buffer_spins_witness :
  exists w',
    fill_buffer env_eof 3 [] BUFFER_SIZE idle_world = Timeout w' /\
    early_exit w' = false /\
    trace w' = trace idle_world ++
      List.concat (repeat [flag_event false; Ev (c_read 0 0 256) (r_data [])] 3).
Proof.
  apply (fill_buffer_spins_at_end_of_stream env_eof);
    [reflexivity | reflexivity | reflexivity | reflexivity].
Defined.

Section RelayCycle.

Variable E : Env.

Lemma send_loop_spec fuel t0 :
  forall w,
    match send_loop E fuel t0 w with
    | Ret b w' =>
        exists evs,
          trace w' = trace w ++ evs /\
          burst (_ffmpegSocketFd (app w)) t0 (_clientList (app w)) evs b
                (_clientList (app w')) /\
          app w' = set_clientList (_clientList (app w')) (app w)
    | Throw _ | Replaced _ => False
    | Timeout _ => True
    end.
Proof.
  induction fuel as [|fuel IH]; intros w; [exact I|].
  cbn [send_loop]. unfold bind at 1.
  pose proof (fill_buffer_spec E fuel [] BUFFER_SIZE w
                ltac:(easy) ltac:(reflexivity)) as F.
  destruct (fill_buffer E fuel [] BUFFER_SIZE w) as [[buffer|] w1| | |];
    try exact F; try exact I.
  2:{ destruct F as (evs & T & H & A). msimpl.
      exists evs. rewrite A. repeat split; auto.
      - now apply burst_halt.
      - now destruct (app w). }
  destruct F as (reads & chunk & T1 & F & B & A1).
  cbn [List.app] in B. subst buffer.
  unfold bind at 1.
  destruct (broadcast_spec E chunk w1) as (rs & w2 & R & L & T2 & A2).
  rewrite R. msimpl.
  set (now := sys E (trace w2) c_getMSTime).
  set (w3 := emit E c_getMSTime (r_int now) w2).
  assert (T3 : trace w3 = trace w ++ reads
                 ++ write_events chunk (_clientList (app w)) rs
                 ++ [Ev c_getMSTime (r_int now)]).
  { unfold w3. rewrite trace_emit, T2, T1, A1, <- !app_assoc. reflexivity. }
  assert (A3 : app w3 = set_clientList (survivors (_clientList (app w)) rs) (app w)).
  { unfold w3. now rewrite app_emit, A2, A1. }
  assert (Rd : round (_ffmpegSocketFd (app w)) (_clientList (app w))
                 (reads ++ write_events chunk (_clientList (app w)) rs
                  ++ [Ev c_getMSTime (r_int now)])
                 (survivors (_clientList (app w)) rs) now).
  { constructor; [exact F|]. now rewrite L, A1. }
  destruct (now - t0 >? tickTimer) eqn:Hb.
  - msimpl. eexists. split; [exact T3|]. rewrite A3. cbn [_clientList set_clientList].
    split; [|reflexivity]. eapply burst_break; [exact Rd|lia].
  - assert (Hle : now - t0 <= tickTimer)
      by (rewrite Z.gtb_ltb in Hb; apply Z.ltb_ge in Hb; lia).
    specialize (IH w3). destruct (send_loop E fuel t0 w3) as [b w'| | |]; auto.
    destruct IH as (evs & T & Bu & A).
    rewrite A3 in Bu. cbn [_clientList _ffmpegSocketFd set_clientList] in Bu.
    exists ((reads ++ write_events chunk (_clientList (app w)) rs
             ++ [Ev c_getMSTime (r_int now)]) ++ evs).
    split; [rewrite T, T3, <- !app_assoc; reflexivity|].
    split; [eapply burst_more; eauto|].
    rewrite A, A3. reflexivity.
Qed.

Lemma accept_client_spec w :
  exists c w1,
    accept_client E w = Ret tt w1 /\
    trace w1 = trace w ++ [Ev (c_accept4 (_listenSocketFd (app w))) (r_int c)] /\
    app w1 = set_clientList (accepted c (_clientList (app w))) (app w).
Proof.
  unfold accept_client, accepted. msimpl.
  exists (sys E (trace w) (c_accept4 (_listenSocketFd (app w)))).
  destruct (_ >? 0); msimpl; eexists; (split; [reflexivity|]); msimpl;
    rewrite ?trace_emit, ?app_emit; split; try reflexivity.
  now destruct (app w).
Qed.

Lemma cycle_spec fuel w :
  match cycle E fuel w with
  | Ret b w' =>
      exists c r t0 evs,
        trace w' = trace w
                   ++ [Ev (c_accept4 (_listenSocketFd (app w))) (r_int c);
                       Ev (c_usleep 20000) (r_int r);
                       Ev c_getMSTime (r_int t0)]
                   ++ evs /\
        burst (_ffmpegSocketFd (app w)) t0 (accepted c (_clientList (app w))) evs b
              (_clientList (app w'))
  | Throw _ | Replaced _ => False
  | Timeout _ => True
  end.
Proof.
  unfold cycle. unfold bind at 1.
  destruct (accept_client_spec w) as (c & w1 & R1 & T1 & A1). rewrite R1.
  msimpl. change (sleepTime * 1000) with 20000.
  set (r := sys E (trace w1) (c_usleep 20000)).
  set (w2 := emit E (c_usleep 20000) (r_int r) w1).
  set (t0 := sys E (trace w2) c_getMSTime).
  set (w3 := emit E c_getMSTime (r_int t0) w2).
  pose proof (send_loop_spec fuel t0 w3) as S.
  destruct (send_loop E fuel t0 w3) as [b w'| | |]; try exact S.
  destruct S as (evs & T & Bu & A).
  assert (A3 : app w3 = set_clientList (accepted c (_clientList (app w))) (app w))
    by (unfold w3, w2; now rewrite !app_emit).
  rewrite A3 in Bu. cbn [_clientList _ffmpegSocketFd set_clientList] in Bu.
  exists c, r, t0, evs. split; [|exact Bu].
  rewrite T. unfold w3, w2. rewrite !trace_emit, T1, <- !app_assoc. reflexivity.
Qed.

Lemma fill_events_no_clock fd remaining evs data :
  fill_events fd remaining evs data -> ~ In c_getMSTime (map ev_call evs).
Proof.
  induction 1 as [|remaining data evs rest _ _ _ IH]; simpl; [tauto|].
  intros [H|[H|H]]; try discriminate. now apply IH.
Qed.

Lemma write_events_no_clock buffer l rs :
  ~ In c_getMSTime (map ev_call (write_events buffer l rs)).
Proof.
  unfold write_events. rewrite map_map. intros H.
  apply in_map_iff in H. destruct H as (p & H & _). discriminate.
Qed.









(** C10: a cycle that breaks back to accept has, between the reading [t0] of
    the clock and the next one, read a full chunk of 256 bytes and written it
    to every client; no reading of the clock comes in between, so the budget
    is first compared after that chunk, whatever the clock says. *)
Theorem cycle_break_follows_full_chunk (fuel : nat) (w w' : World) :
  cycle E fuel w = Ret true w' ->
  exists c r t0 reads chunk rs now rest,
    let l := accepted c (_clientList (app w)) in
    trace w' = trace w
               ++ [Ev (c_accept4 (_listenSocketFd (app w))) (r_int c);
                   Ev (c_usleep 20000) (r_int r);
                   Ev c_getMSTime (r_int t0)]
               ++ reads ++ write_events chunk l rs
               ++ [Ev c_getMSTime (r_int now)] ++ rest /\
    fill_events (_ffmpegSocketFd (app w)) BUFFER_SIZE reads chunk /\
    Z.of_nat (List.length chunk) = BUFFER_SIZE /\
    List.length rs = List.length l /\
    ~ In c_getMSTime (map ev_call (reads ++ write_events chunk l rs)).
Proof.
  intros H. pose proof (cycle_spec fuel w) as S. rewrite H in S.
  destruct S as (c & r & t0 & evs & T & Bu).
  assert (exists reads chunk rs now rest,
            evs = (reads ++ write_events chunk (accepted c (_clientList (app w))) rs
                   ++ [Ev c_getMSTime (r_int now)]) ++ rest /\
            fill_events (_ffmpegSocketFd (app w)) BUFFER_SIZE reads chunk /\
            List.length rs = List.length (accepted c (_clientList (app w))))
    as (reads & chunk & rs & now & rest & Hevs & F & L).
  { inversion Bu as [l evs0 l' now Rd Hn|l evs1 l1 now evs2 b0 l2 Rd Hn Bu'|];
      subst; inversion Rd; subst.
    - do 4 eexists. exists []. rewrite app_nil_r. eauto.
    - do 5 eexists. eauto. }
  exists c, r, t0, reads, chunk, rs, now, rest. cbv zeta.
  split; [rewrite T, Hevs, <- !app_assoc; reflexivity|].
  split; [exact F|]. split; [eapply fill_events_length; eauto|].
  split; [exact L|].
  rewrite map_app, in_app_iff. intros [X|X].
  - eapply fill_events_no_clock; eauto.
  - eapply write_events_no_clock; eauto.
Qed.

End RelayCycle.


(** The cycle of that run: the first chunk is relayed to client 7 within
    the budget, the second round is cut by the read that fails, and the
    cycle leaves Run. *)
Example cycle_upstream_lost :
  let w' := world_of (cycle env_upstream_lost 265 serving) in
  cycle env_upstream_lost 265 serving = Ret false w' /\
  trace w' = [Ev (c_accept4 3) (r_int 7);
              Ev (c_usleep 20000) (r_int 0);
              Ev c_getMSTime (r_int 10);
              flag_event false;
              Ev (c_read 4 0 256) (r_data chunk0);
              Ev (c_write 7 chunk0 256) (r_int 256);
              Ev c_getMSTime (r_int 30);
              flag_event false;
              Ev (c_read 4 0 256) (r_int (-1))] /\
  Run_loop env_upstream_lost 266 serving = Ret tt w'.
Proof. vm_compute. repeat split; reflexivity. Qed.

Lemma cycle_break_follows_full_chunk_witness :
  let w' := world_of (cycle env_steady 5 serving) in
  cycle env_steady 5 serving = Ret true w' /\
  exists c r t0 reads chunk rs now rest,
    let l := accepted c (_clientList (app serving)) in
    trace w' = trace serving
               ++ [Ev (c_accept4 (_listenSocketFd (app serving))) (r_int c);
                   Ev (c_usleep 20000) (r_int r);
                   Ev c_getMSTime (r_int t0)]
               ++ reads ++ write_events chunk l rs
               ++ [Ev c_getMSTime (r_int now)] ++ rest /\
    fill_events (_ffmpegSocketFd (app serving)) BUFFER_SIZE reads chunk /\
    Z.of_nat (List.length chunk) = BUFFER_SIZE /\
    List.length rs = List.length l /\
    ~ In c_getMSTime (map ev_call (reads ++ write_events chunk l rs)).
Proof.
  intros w'. split; [unfold w'; vm_compute; reflexivity|].
  apply (cycle_break_follows_full_chunk env_steady 5 serving w').
  unfold w'; vm_compute; reflexivity.
Defined.

Section ConnectRetry.

Variable E : Env.



Lemma count_calls_app p evs1 evs2 :
  count_calls p (evs1 ++ evs2) = (count_calls p evs1 + count_calls p evs2)%nat.
Proof. unfold count_calls. now rewrite filter_app, length_app. Qed.

Lemma count_calls_suffix p pre post :
  (count_calls p post <= count_calls p (pre ++ post))%nat.
Proof. rewrite count_calls_app. lia. Qed.

Lemma connect_retry_spec fuel ffd port :
  forall w,
    match connect_retry E fuel ffd port w with
    | Ret b w' =>
        exists evs,
          trace w' = trace w ++ evs /\
          retry_events ffd port evs b /\
          app w' = app w /\
          early_exit w' = flag_after E (trace w) (early_exit w) evs
    | Throw _ | Replaced _ => False
    | Timeout _ => True
    end.
Proof.
  induction fuel as [|fuel IH]; intros w; [exact I|].
  cbn [connect_retry]. msimpl.
  destruct (early_exit w) eqn:Hflag.
  { msimpl. exists [flag_event true]. rewrite trace_emit, app_emit.
    repeat split; [constructor|].
    rewrite early_exit_emit, Hflag. reflexivity. }
  set (w0 := emit E c_early_exit (r_int 0) w).
  set (error := sys E (trace w0) (c_connect ffd port)).
  set (w1 := emit E (c_connect ffd port) (r_int error) w0).
  assert (T1 : trace w1 = trace w ++ [flag_event false;
                                       Ev (c_connect ffd port) (r_int error)]).
  { unfold w1, w0. rewrite !trace_emit, <- app_assoc. reflexivity. }
  assert (F1 : early_exit w1 =
               flag_after E (trace w) false
                 [flag_event false; Ev (c_connect ffd port) (r_int error)]).
  { unfold w1, w0. rewrite !early_exit_emit, !trace_emit, Hflag. reflexivity. }
  destruct (error >=? 0) eqn:Herr.
  { msimpl. eexists. split; [exact T1|]. split; [constructor; lia|].
    split; [unfold w1, w0; now rewrite !app_emit|exact F1]. }
  msimpl.
  set (s := sys E (trace w1) (c_usleep (500 * 1000))).
  set (w2 := emit E (c_usleep (500 * 1000)) (r_int s) w1).
  specialize (IH w2).
  destruct (connect_retry E fuel ffd port w2) as [b w'| | |]; auto.
  destruct IH as (evs & T & R & A & F).
  exists (flag_event false :: Ev (c_connect ffd port) (r_int error)
          :: Ev (c_usleep 500000) (r_int s) :: evs).
  split; [rewrite T; unfold w2; rewrite trace_emit, T1, <- !app_assoc; reflexivity|].
  split; [constructor; [lia|exact R]|].
  split; [rewrite A; unfold w2, w1, w0; now rewrite !app_emit|].
  rewrite F. unfold w2. rewrite early_exit_emit, trace_emit, F1, T1.
  cbn [flag_after]. rewrite <- !app_assoc. reflexivity.
Qed.



End ConnectRetry.


Section Cleanup.

Variable E : Env.

Lemma set_clientList_same s : set_clientList (_clientList s) s = s.
Proof. now destruct s. Qed.

Lemma close_clients_spec l :
  forall w, exists rs w',
    close_clients E l w = Ret tt w' /\
    List.length rs = List.length l /\
    trace w' = trace w ++ close_events l rs /\
    app w' = set_clientList (match l with [] => _clientList (app w) | _ => [] end)
                            (app w).
Proof.
  induction l as [|x l IH]; intros w.
  - exists [], w. msimpl. rewrite app_nil_r, set_clientList_same. auto.
  - cbn [close_clients]. msimpl.
    match goal with |- context [close_clients E l ?w1] =>
      destruct (IH w1) as (rs & w' & R & L & T & A); rewrite R;
      exists (sys E (trace w) (c_close x) :: rs), w' end.
    repeat split; [simpl; congruence| |].
    + rewrite T, trace_emit. msimpl. now rewrite <- app_assoc.
    + rewrite A, app_emit. msimpl. now destruct l.
Qed.

Lemma close_events_calls l rs :
  List.length rs = List.length l ->
  map ev_call (close_events l rs) = map c_close l /\
  ~ In r_throw (map ev_reply (close_events l rs)).
Proof.
  revert rs. induction l as [|x l IH]; intros [|r rs] H; try discriminate;
    cbn; [tauto|].
  injection H as H. destruct (IH rs H) as [C N]. unfold close_events in C.
  rewrite C. split; [reflexivity|]. intros [X|X]; [discriminate|]. now apply N.
Qed.

(** What Close does, in all cases: the calls it makes do not depend on the
    results of the calls before, save for a CloseStream that raises. *)
Lemma Close_spec w :
  exists evs,
    trace (world_of (Close E w)) = trace w ++ evs /\
    app (world_of (Close E w)) = set_clientList [] (app w) /\
    ((Close E w = Ret tt (world_of (Close E w)) /\
      map ev_call evs =
        map c_close (_clientList (app w)) ++ socket_calls (app w)
        ++ deregister_calls (app w) ++ reap_calls (app w) /\
      ~ In r_throw (map ev_reply evs))
     \/
     (Close E w = Throw (world_of (Close E w)) /\
      _portal (app w) = true /\
      exists evs0,
        evs = evs0 ++ [Ev (c_CloseStream (_streamEntry (app w))) r_throw] /\
        map ev_call evs0 =
          map c_close (_clientList (app w)) ++ socket_calls (app w))).
Proof.
  unfold Close. msimpl.
  destruct (close_clients_spec (_clientList (app w)) w)
    as (rs & w1 & R & L & T & A).
  rewrite R.
  assert (A1 : app w1 = set_clientList [] (app w)).
  { revert A. destruct (_clientList (app w)); intros A; exact A. }
  clear A R.
  destruct (close_events_calls _ _ L) as [C N].
  unfold socket_calls, deregister_calls, reap_calls.
  rewrite A1. cbn [_listenSocketFd _ffmpegSocketFd _portal _ffmpegPid
                   _streamEntry set_clientList].
  destruct (_listenSocketFd (app w) >? 0); msimpl;
    rewrite ?app_emit, ?A1;
    cbn [_listenSocketFd _ffmpegSocketFd _portal _ffmpegPid _streamEntry
         set_clientList];
    (destruct (_ffmpegSocketFd (app w) >? 0); msimpl;
     rewrite ?app_emit, ?A1;
     cbn [_listenSocketFd _ffmpegSocketFd _portal _ffmpegPid _streamEntry
          set_clientList]);
    (destruct (_portal (app w)); msimpl; unfold ice_call;
     [match goal with |- context [ice E ?h ?c] => destruct (ice E h c) end|];
     msimpl; rewrite ?app_emit, ?A1;
     cbn [_listenSocketFd _ffmpegSocketFd _portal _ffmpegPid _streamEntry
          set_clientList]);
    try (destruct (_ffmpegPid (app w) >? 0); msimpl);
    rewrite ?trace_emit, ?app_emit; msimpl;
    rewrite ?trace_emit, ?app_emit, ?T, ?A1;
    eexists; (split; [rewrite <- ?app_assoc; reflexivity|]);
    (split; [reflexivity|]).
  all: try (left; split; [reflexivity|];
            rewrite ?map_app, C; cbn [map ev_call ev_reply List.app];
            split; [rewrite <- ?app_assoc, ?app_nil_r; reflexivity|];
            rewrite ?in_app_iff; cbn [In]; intuition (try discriminate; auto)).
  all: right; split; [reflexivity|]; split; [reflexivity|];
    eexists; split; [rewrite ?app_assoc; reflexivity|];
    rewrite ?map_app, C; cbn [map ev_call List.app];
    rewrite <- ?app_assoc; rewrite ?app_nil_r; reflexivity.
Qed.

(** C5, as the code has it: Close makes its calls in order, and no result
    of shutdown, close, kill or wait changes which calls come next; the one
    exception is CloseStream: when it raises, the exception leaves Close
    there, and neither kill nor wait is called. *)
Theorem cleanup_runs_on_unless_CloseStream_raises (w : World) :
  exists evs,
    trace (world_of (Close E w)) = trace w ++ evs /\
    ((Close E w = Ret tt (world_of (Close E w)) /\
      map ev_call evs =
        map c_close (_clientList (app w)) ++ socket_calls (app w)
        ++ deregister_calls (app w) ++ reap_calls (app w) /\
      ~ In r_throw (map ev_reply evs))
     \/
     (Close E w = Throw (world_of (Close E w)) /\
      _portal (app w) = true /\
      exists evs0,
        evs = evs0 ++ [Ev (c_CloseStream (_streamEntry (app w))) r_throw] /\
        map ev_call evs0 =
          map c_close (_clientList (app w)) ++ socket_calls (app w))).
Proof.
  destruct (Close_spec w) as (evs & T & _ & H). exists evs. auto.
Qed.

(** C8, as the code has it: after Close the client list is empty, so a
    second Close closes no client again; the member variables for the two
    sockets, the portal and the transcoder are not reset, so the second Close
    repeats every other call of the first. *)
Theorem second_Close_repeats_all_but_clients (w w1 w2 : World) :
  Close E w = Ret tt w1 ->
  Close E w1 = Ret tt w2 ->
  _clientList (app w1) = [] /\
  exists evs1 evs2,
    trace w1 = trace w ++ evs1 /\
    trace w2 = trace w1 ++ evs2 /\
    map ev_call evs1 = map c_close (_clientList (app w)) ++ map ev_call evs2 /\
    map ev_call evs2 =
      socket_calls (app w) ++ deregister_calls (app w) ++ reap_calls (app w).
Proof.
  intros H1 H2.
  destruct (Close_spec w) as (evs1 & T1 & A1 & [(_ & C1 & _)|(X & _)]);
    [|rewrite H1 in X; discriminate].
  destruct (Close_spec w1) as (evs2 & T2 & _ & [(_ & C2 & _)|(X & _)]);
    [|rewrite H2 in X; discriminate].
  rewrite H1 in T1, A1. rewrite H2 in T2. cbn [world_of] in *.
  rewrite A1 in C2. cbn in C2.
  split; [now rewrite A1|]. exists evs1, evs2.
  split; [exact T1|]. split; [exact T2|]. split; [now rewrite C1, C2|].
  rewrite C2. now destruct (app w).
Qed.

End Cleanup.

(** C5 as stated fails: with a transcoder running (pid 77), a CloseStream
    that raises ends Close before kill and wait. *)
Lemma Close_cut_short_by_CloseStream :
  let o := Close env_portal_down in_service in
  o = Throw (world_of o) /\
  _ffmpegPid (app in_service) = 77 /\
  trace (world_of o) =
    [Ev (c_close 7) (r_int 0);
     Ev (c_shutdown 3) (r_int 0); Ev (c_close 3) (r_int 0);
     Ev (c_shutdown 4) (r_int 0); Ev (c_close 4) (r_int 0);
     Ev (c_CloseStream entry0) r_throw].
Proof. vm_compute. repeat split. Qed.

(** C8 as stated fails: two cleanups in sequence close sockets 3 and 4 twice,
    call CloseStream twice and signal and reap the transcoder twice. *)
Lemma Close_twice_repeats_calls :
  let o := (Close env_ok ;;; Close env_ok) in_service in
  o = Ret tt (world_of o) /\
  map ev_call (trace (world_of o)) =
    [c_close 7;
     c_shutdown 3; c_close 3; c_shutdown 4; c_close 4;
     c_CloseStream entry0; c_kill 77 SIGTERM; c_wait;
     c_shutdown 3; c_close 3; c_shutdown 4; c_close 4;
     c_CloseStream entry0; c_kill 77 SIGTERM; c_wait].
Proof. vm_compute. repeat split. Qed.

Lemma second_Close_repeats_witness :
  let w1 := world_of (Close env_ok in_service) in
  let w2 := world_of (Close env_ok w1) in
  Close env_ok in_service = Ret tt w1 /\
  Close env_ok w1 = Ret tt w2 /\
  _clientList (app w1) = [] /\
  exists evs1 evs2,
    trace w1 = trace in_service ++ evs1 /\
    trace w2 = trace w1 ++ evs2 /\
    map ev_call evs1 = map c_close (_clientList (app in_service))
                       ++ map ev_call evs2 /\
    map ev_call evs2 =
      socket_calls (app in_service) ++ deregister_calls (app in_service)
      ++ reap_calls (app in_service).
Proof.
  intros w1 w2.
  split; [unfold w1; vm_compute; reflexivity|].
  split; [unfold w2, w1; vm_compute; reflexivity|].
  apply (second_Close_repeats_all_but_clients env_ok in_service w1 w2).
  - unfold w1; vm_compute; reflexivity.
  - unfold w2, w1; vm_compute; reflexivity.
Defined.

Section Within.

Variable E : Env.
Variable p : call -> bool.
Variable Q : Streamer -> Streamer -> Prop.
Hypothesis Q_refl : forall s, Q s s.
Hypothesis Q_trans : forall s1 s2 s3, Q s1 s2 -> Q s2 s3 -> Q s1 s3.

Lemma within_ret {A} (a : A) : within p Q (ret a).
Proof. intros w. exists []. msimpl. rewrite app_nil_r. auto. Qed.

Lemma within_out_of_fuel {A} : within p Q (@out_of_fuel A).
Proof. intros w. exists []. msimpl. rewrite app_nil_r. auto. Qed.

Lemma within_replaced {A} : within p Q (@replaced A).
Proof. intros w. exists []. msimpl. rewrite app_nil_r. auto. Qed.

Lemma within_get {A} (f : Streamer -> A) : within p Q (get f).
Proof. intros w. exists []. msimpl. rewrite app_nil_r. auto. Qed.

Lemma within_LOG sev msg : within p Q (LOG sev msg).
Proof. intros w. exists []. msimpl. rewrite app_nil_r. auto. Qed.

Lemma within_modify f : (forall s, Q s (f s)) -> within p Q (modify f).
Proof. intros H w. exists []. msimpl. rewrite app_nil_r. auto. Qed.

Lemma within_syscall c : p c = true -> within p Q (syscall E c).
Proof.
  intros H w. eexists. msimpl. rewrite trace_emit, app_emit.
  split; [reflexivity|]. split; [repeat constructor; exact H|apply Q_refl].
Qed.

Lemma within_read_early_exit : p c_early_exit = true -> within p Q (read_early_exit E).
Proof.
  intros H w. eexists. msimpl. rewrite trace_emit, app_emit.
  split; [reflexivity|]. split; [repeat constructor; exact H|apply Q_refl].
Qed.

Lemma within_sys_read fd offset count :
  p (c_read fd offset count) = true -> within p Q (sys_read E fd offset count).
Proof.
  intros H w. unfold sys_read. destruct (upstream E _ fd count); eexists;
    msimpl; rewrite trace_emit, app_emit;
    (split; [reflexivity|]); (split; [repeat constructor; exact H|apply Q_refl]).
Qed.

Lemma within_ice_call c : p c = true -> within p Q (ice_call E c).
Proof.
  intros H w. unfold ice_call. destruct (ice E _ c); eexists;
    msimpl; rewrite trace_emit, app_emit;
    (split; [reflexivity|]); (split; [repeat constructor; exact H|apply Q_refl]).
Qed.

Lemma within_bind {A B} (m : M A) (k : A -> M B) :
  within p Q m -> (forall a, within p Q (k a)) -> within p Q (bind m k).
Proof.
  intros Hm Hk w. destruct (Hm w) as (evs1 & T1 & F1 & Q1).
  unfold bind. destruct (m w) as [a w1|w1|w1|w1]; cbn [world_of] in *;
    try solve [exists evs1; auto].
  destruct (Hk a w1) as (evs2 & T2 & F2 & Q2).
  exists (evs1 ++ evs2). rewrite T2, T1, app_assoc.
  split; [reflexivity|]. split; [now apply Forall_app|eauto].
Qed.

End Within.

Ltac within_step :=
  intros;
  first
    [ apply within_ret
    | apply within_get
    | apply within_LOG
    | apply within_modify
    | apply within_out_of_fuel
    | apply within_replaced
    | apply within_syscall
    | apply within_read_early_exit
    | apply within_sys_read
    | apply within_ice_call
    | apply within_bind
    | match goal with
      | |- within _ _ (if ?c then _ else _) => destruct c
      | |- within _ _ (match ?c with Some _ => _ | None => _ end) => destruct c
      end ];
  try solve [eauto]; try (intros; reflexivity).

Section RelayCalls.

Variable E : Env.

Lemma same_handles_refl s : same_handles s s.
Proof. unfold same_handles. now destruct s. Qed.

Lemma same_handles_trans s1 s2 s3 :
  same_handles s1 s2 -> same_handles s2 s3 -> same_handles s1 s3.
Proof. unfold same_handles. intros H1 H2. rewrite H2, H1. reflexivity. Qed.

Lemma same_handles_set l s : same_handles s (set_clientList l s).
Proof. reflexivity. Qed.

#[local] Hint Resolve same_handles_refl same_handles_trans same_handles_set : core.

Lemma within_fill_buffer fuel :
  forall buffer remaining,
    within relay_call same_handles (fill_buffer E fuel buffer remaining).
Proof.
  induction fuel as [|fuel IH]; intros buffer remaining; cbn [fill_buffer];
    repeat within_step; auto.
Qed.

Lemma within_remove_if buffer l :
  within relay_call same_handles (remove_if (send_to E buffer) l).
Proof.
  induction l as [|x l IH]; cbn [remove_if]; unfold send_to;
    repeat within_step; auto.
Qed.

Lemma within_broadcast buffer :
  within relay_call same_handles (broadcast E buffer).
Proof.
  unfold broadcast. repeat within_step; auto using within_remove_if.
Qed.

Lemma within_send_loop fuel t0 :
  within relay_call same_handles (send_loop E fuel t0).
Proof.
  induction fuel as [|fuel IH]; cbn [send_loop];
    repeat within_step;
    auto using within_fill_buffer, within_broadcast, within_remove_if.
Qed.

Lemma within_cycle fuel : within relay_call same_handles (cycle E fuel).
Proof.
  unfold cycle, accept_client.
  repeat within_step; auto using within_send_loop.
Qed.

Lemma within_Run_loop fuel : within relay_call same_handles (Run_loop E fuel).
Proof.
  induction fuel as [|fuel IH]; cbn [Run_loop];
    repeat within_step;
    auto using within_cycle, within_send_loop.
Qed.

Lemma within_Run fuel : within relay_call same_handles (Run E fuel).
Proof.
  unfold Run. repeat within_step. intros _. apply within_Run_loop.
Qed.

End RelayCalls.

Section InitializeFacts.

Variable E : Env.

Lemma keep_portal_refl s : keep_portal s s.
Proof. reflexivity. Qed.

Lemma keep_portal_trans s1 s2 s3 :
  keep_portal s1 s2 -> keep_portal s2 s3 -> keep_portal s1 s3.
Proof. unfold keep_portal. congruence. Qed.

#[local] Hint Resolve keep_portal_refl keep_portal_trans : core.

Lemma within_open_listen_port :
  within listen_call keep_portal (open_listen_port E).
Proof. unfold open_listen_port. repeat within_step. Qed.

Lemma open_listen_port_returns w :
  exists ok w', open_listen_port E w = Ret ok w'.
Proof.
  unfold open_listen_port. msimpl.
  repeat match goal with
         | |- context [if ?c then _ else _] => destruct c; msimpl
         end; eauto.
Qed.

Lemma within_connect_retry fuel ffd port :
  within ffmpeg_call keep_portal (connect_retry E fuel ffd port).
Proof.
  induction fuel as [|fuel IH]; cbn [connect_retry]; repeat within_step.
Qed.

Lemma within_start_ffmpeg fuel :
  within ffmpeg_call keep_portal (start_ffmpeg E fuel).
Proof.
  unfold start_ffmpeg, fork_ffmpeg, exec_ffmpeg.
  repeat within_step; auto using within_connect_retry.
Qed.

Lemma fork_ffmpeg_spec endpoint w :
  match fork_ffmpeg E endpoint w with
  | Ret _ w' =>
      exists child,
        let pid := sys E (trace w) c_fork in
        trace w' = trace w ++ [Ev c_fork (r_int pid)] ++ child /\
        (pid <> 0 -> child = []) /\
        Forall (fun e => is_execlp (ev_call e) = true) child /\
        app w' = set_ffmpegPid pid (app w)
  | Throw _ | Timeout _ => False
  | Replaced _ => True
  end.
Proof.
  unfold fork_ffmpeg. msimpl.
  set (pid := sys E (trace w) c_fork).
  destruct (pid =? 0) eqn:Hpid.
  - unfold exec_ffmpeg. msimpl.
    match goal with |- context [sys E ?h ?c <? 0] =>
      set (r := sys E h c); set (cc := c) end.
    destruct (r <? 0); msimpl; [|exact I].
    exists [Ev cc (r_int r)]. cbv zeta.
    rewrite ?trace_emit, ?app_emit. msimpl. rewrite ?trace_emit, ?app_emit.
    split; [now rewrite <- app_assoc|].
    split; [apply Z.eqb_eq in Hpid; intros X; now elim X|].
    split; [repeat constructor|reflexivity].
  - msimpl. exists []. cbv zeta. rewrite trace_emit, app_emit.
    repeat split; auto.
Qed.

Lemma start_ffmpeg_spec fuel w :
  match start_ffmpeg E fuel w with
  | Ret ok w' =>
      exists child ffd retry,
        let pid := sys E (trace w) c_fork in
        trace w' = trace w ++ [Ev c_fork (r_int pid)] ++ child
                   ++ [Ev (c_socket false) (r_int ffd)] ++ retry /\
        (pid <> 0 -> child = []) /\
        Forall (fun e => is_execlp (ev_call e) = true) child /\
        retry_events ffd (htons_port (_ffmpegPort (app w))) retry ok /\
        _ffmpegPid (app w') = pid /\
        _streamEntry (app w') = _streamEntry (app w)
  | Throw _ => False
  | Replaced _ | Timeout _ => True
  end.
Proof.
  unfold start_ffmpeg. msimpl.
  match goal with |- context [fork_ffmpeg E ?ep ?w0] =>
    pose proof (fork_ffmpeg_spec ep w0) as Sf;
    destruct (fork_ffmpeg E ep w0) as [[] wc|wc|wc|wc];
    try exact Sf; try contradiction
  end.
  destruct Sf as (child & Tc & Hc & Fc & Ac). revert Tc Hc Ac. msimpl.
  intros Tc Hc Ac.
  set (ffd := sys E (trace wc) (c_socket false)).
  match goal with |- context [connect_retry E fuel ffd ?port ?w2] =>
    pose proof (connect_retry_spec E fuel ffd port w2) as Sp;
    destruct (connect_retry E fuel ffd port w2) as [ok w'| | |];
    try exact Sp; try contradiction
  end.
  destruct Sp as (retry & T & R & A & _). revert T A. msimpl.
  rewrite trace_emit, app_emit, Ac, Tc. intros T A.
  exists child, ffd, retry. cbv zeta.
  split; [rewrite T, <- !app_assoc; reflexivity|].
  split; [exact Hc|]. split; [exact Fc|]. split; [exact R|].
  rewrite A. split; reflexivity.
Qed.

Lemma Initialize_spec fuel w ok w1 :
  Initialize E fuel w = Ret ok w1 ->
  exists p evs,
    trace w1 = trace w ++ Ev c_portal (r_int (if p : bool then 1 else 0)) :: evs /\
    _portal (app w1) = p /\
    ((ok = false /\ Forall (fun e => listen_call (ev_call e) = true) evs)
     \/
     (p = true /\
      exists pre child ffd port retry n,
        let pid := _ffmpegPid (app w1) in
        evs = pre ++ [Ev c_fork (r_int pid)] ++ child
              ++ [Ev (c_socket false) (r_int ffd)] ++ retry
              ++ (if ok then [Ev (c_NewStream (_streamEntry (app w1))) (r_int n)]
                  else []) /\
        Forall (fun e => listen_call (ev_call e) = true) pre /\
        (pid <> 0 -> child = []) /\
        Forall (fun e => is_execlp (ev_call e) = true) child /\
        retry_events ffd port retry ok /\
        pid = sys E (trace w ++ Ev c_portal (r_int 1) :: pre) c_fork)).
Proof.
  unfold Initialize. unfold bind at 1. unfold ice_call at 1.
  destruct (ice E (trace w) c_portal) as [p|]; [|discriminate].
  msimpl. rewrite app_emit.
  set (w0 := mkWorld _ _ _ _).
  assert (T0 : trace w0 = trace w ++ [Ev c_portal (r_int (if p then 1 else 0))])
    by (unfold w0; msimpl; apply trace_emit).
  assert (P0 : _portal (app w0) = p) by reflexivity.
  destruct p; cbn [negb].
  2:{ intros H. injection H as <- <-. exists false, []. msimpl. auto. }
  destruct (open_listen_port_returns w0) as (listening & w2 & R2).
  destruct (within_open_listen_port w0) as (pre & T2 & F2 & K2).
  rewrite R2 in *. cbn [world_of] in *.
  destruct listening.
  2:{ intros H. injection H as <- <-. exists true, pre.
      rewrite T2, T0, <- app_assoc. split; [reflexivity|].
      split; [now rewrite K2|]. left. auto. }
  pose proof (start_ffmpeg_spec fuel w2) as S3.
  destruct (within_start_ffmpeg fuel w2) as (evs3 & _ & _ & K3).
  destruct (start_ffmpeg E fuel w2) as [connected w3| | |]; try discriminate.
  cbn [world_of] in *.
  destruct S3 as (child & ffd & retry & T3 & Hc & Fc & R3 & Pid & En).
  cbv zeta in *.
  rewrite T2, T0, <- !app_assoc in T3. rewrite T2, T0, <- !app_assoc in Hc.
  rewrite T2, T0, <- !app_assoc in Pid. cbn [List.app] in T3, Hc, Pid.
  set (pid := sys E (trace w ++ Ev c_portal (r_int 1) :: pre) c_fork) in *.
  destruct connected.
  - unfold ice_call.
    destruct (ice E (trace w3) (c_NewStream (_streamEntry (app w3)))) as [b|];
      [|discriminate].
    msimpl. intros H. injection H as <- <-.
    rewrite trace_emit, app_emit.
    exists true,
      (pre ++ [Ev c_fork (r_int pid)] ++ child
       ++ [Ev (c_socket false) (r_int ffd)] ++ retry
       ++ [Ev (c_NewStream (_streamEntry (app w3))) (r_int (if b then 1 else 0))]).
    split; [rewrite T3; repeat (rewrite <- app_assoc; cbn [List.app]);
            reflexivity|].
    split; [unfold keep_portal in *; congruence|]. right. split; [reflexivity|].
    exists pre, child, ffd, (htons_port (_ffmpegPort (app w2))), retry,
      (if b then 1 else 0). cbv zeta.
    rewrite Pid. repeat split; eauto.
  - intros H. injection H as <- <-.
    exists true,
      (pre ++ [Ev c_fork (r_int pid)] ++ child
       ++ [Ev (c_socket false) (r_int ffd)] ++ retry ++ []).
    split; [rewrite T3, app_nil_r; reflexivity|].
    split; [unfold keep_portal in *; congruence|]. right. split; [reflexivity|].
    exists pre, child, ffd, (htons_port (_ffmpegPort (app w2))), retry, 0.
    cbv zeta.
    rewrite Pid. repeat split; eauto.
Qed.

End InitializeFacts.

Section RunFacts.

Variable E : Env.

Lemma apply_option_spec option arg loc w :
  exists loc' w',
    apply_option option arg loc w = Ret loc' w' /\
    trace w' = trace w /\ early_exit w' = early_exit w.
Proof.
  unfold apply_option.
  repeat match goal with
         | |- context [if String.eqb ?a ?b then _ else _] =>
             destruct (String.eqb a b)
         end; msimpl; do 2 eexists; (split; [reflexivity|]); auto.
Qed.

(** With an option on the command line the loop always ends in its
    [return 1]: [i] advances by one, so the last pass, at [i = argc - 1],
    takes the value of the last option for an option without a value. *)
Lemma parse_options_rejects todo :
  forall i argv loc w,
    (0 < todo)%nat ->
    (i + todo = List.length argv)%nat ->
    exists w',
      parse_options todo i argv loc w = Ret None w' /\
      trace w' = trace w /\ early_exit w' = early_exit w.
Proof.
  induction todo as [|todo IH]; intros i argv loc w Hpos Hlen; [lia|].
  cbn [parse_options].
  destruct (List.length argv <=? i + 1)%nat eqn:Hlast.
  - msimpl. eexists. split; [reflexivity|]. msimpl. auto.
  - apply Nat.leb_gt in Hlast. unfold bind.
    destruct (apply_option_spec (nth i argv ""%string)
                (nth (i + 1) argv ""%string) loc w) as (loc' & w1 & R1 & T1 & F1).
    rewrite R1.
    destruct (IH (i + 1)%nat argv loc' w1) as (w' & R & T & F); [lia|lia|].
    exists w'. rewrite R, T, F. auto.
Qed.

Lemma LOG_returns sev msg w :
  exists w', LOG sev msg w = Ret tt w' /\ trace w' = trace w.
Proof. eexists. split; reflexivity. Qed.

Lemma PrintUsage_spec w :
  exists w', PrintUsage w = Ret tt w' /\ trace w' = trace w.
Proof.
  unfold PrintUsage, LOG_INFO, bind.
  repeat match goal with
         | |- context [LOG ?s ?m ?w0] =>
             let R := fresh "R" in
             destruct (LOG_returns s m w0) as (? & R & ?);
             rewrite R; clear R; cbv beta iota
         end.
  eexists. split; [reflexivity|congruence].
Qed.

(** How run ends when it returns: by one of its two [return 1] before any
    call was made, or through Initialize, Run when Initialize succeeded, and
    Close. *)
Lemma run_spec fuel argv w code w' :
  run E fuel argv w = Ret code w' ->
  (code = 1 /\ trace w' = trace w /\ List.length argv <> 3%nat)
  \/
  (List.length argv = 3%nat /\
   exists w0 ok w1 w2,
     trace w0 = trace w /\
     Initialize E fuel w0 = Ret ok w1 /\
     ((ok = true /\ code = 0 /\ Run E fuel w1 = Ret tt w2)
      \/ (ok = false /\ code = 1 /\ trace w2 = trace w1 /\ app w2 = app w1)) /\
     Close E w2 = Ret tt w').
Proof.
  unfold run.
  destruct (List.length argv <? 3)%nat eqn:Hargc.
  { apply Nat.ltb_lt in Hargc.
    destruct (PrintUsage_spec w) as (w1 & R & T).
    unfold bind. rewrite R. msimpl. intros H. injection H as <- <-.
    left. repeat split; auto. lia. }
  apply Nat.ltb_ge in Hargc.
  destruct (Nat.eq_dec (List.length argv) 3) as [H3|H3].
  2:{ msimpl.
      match goal with |- context [parse_options ?t 3 argv ?l ?w1] =>
        destruct (parse_options_rejects t 3 argv l w1) as (w1' & R & T & _);
        [lia|lia|]; rewrite R
      end.
      intros H. injection H as <- <-. left. repeat split; auto. }
  rewrite H3. cbn [Nat.sub parse_options]. msimpl.
  match goal with |- context [Initialize E fuel ?wi] => set (w0 := wi) end.
  destruct (Initialize E fuel w0) as [ok w1| | |] eqn:HI; try discriminate.
  destruct ok.
  - unfold Run at 1. msimpl.
    match goal with |- context [Run_loop E fuel ?wr] =>
      change (Run_loop E fuel wr) with (Run E fuel w1) end.
    destruct (Run E fuel w1) as [[] w2| | |] eqn:HR; try discriminate.
    msimpl. destruct (Close E w2) as [[] w3| | |] eqn:HC; try discriminate.
    intros H. injection H as <- <-. right. split; [reflexivity|].
    exists w0, true, w1, w2. repeat split; auto.
  - msimpl.
    match goal with |- context [Close E ?wc] => set (w2 := wc) end.
    destruct (Close E w2) as [[] w3| | |] eqn:HC; try discriminate.
    intros H. injection H as <- <-. right. split; [reflexivity|].
    exists w0, false, w1, w2. repeat split; auto.
Qed.

(** C9 fails on the code: whatever options follow the two positional
    arguments, run returns 1 from its option loop and has made no call:
    Initialize is never reached. *)
Theorem run_rejects_every_option (fuel : nat) (argv : list string) (w : World) :
  (3 < List.length argv)%nat ->
  exists w', run E fuel argv w = Ret 1 w' /\ trace w' = trace w.
Proof.
  intros Hargc. unfold run.
  destruct (List.length argv <? 3)%nat eqn:H; [apply Nat.ltb_lt in H; lia|].
  msimpl.
  match goal with |- context [parse_options ?t 3 argv ?l ?w1] =>
    destruct (parse_options_rejects t 3 argv l w1) as (w1' & R & T & _);
    [lia|lia|]; rewrite R
  end.
  exists w1'. auto.
Qed.

End RunFacts.

Lemma run_rejects_every_option_witness :
  (3 < List.length ["streamer"; "video.mp4"; "name"; "--port"; "9700"]%string)%nat /\
  exists w',
    run env_ok 10 ["streamer"; "video.mp4"; "name"; "--port"; "9700"]%string
        idle_world = Ret 1 w' /\
    trace w' = trace idle_world.
Proof.
  split; [cbn; lia|].
  apply (run_rejects_every_option env_ok 10
           ["streamer"; "video.mp4"; "name"; "--port"; "9700"]%string idle_world).
  cbn; lia.
Defined.

(** The same run, evaluated: the listen port was set to 9700, then the value
    9700 was read as an option that lacks its value. *)
Example run_port_option :
  let o := run env_ok 10 ["streamer"; "video.mp4"; "name"; "--port"; "9700"]%string
             idle_world in
  o = Ret 1 (world_of o) /\
  trace (world_of o) = [] /\
  _listenPort (app (world_of o)) = 9700 /\
  log (world_of o) = [(INFO, "Missing argument after option 9700"%string)].
Proof. vm_compute. repeat split. Qed.

Section Counting.

Lemma count_calls_class (r q : call -> bool) evs :
  (forall c, r c = true -> q c = false) ->
  Forall (fun e => r (ev_call e) = true) evs ->
  count_calls q evs = 0%nat.
Proof.
  intros Hrq. induction 1 as [|e evs He _ IH]; [reflexivity|].
  unfold count_calls in *. cbn [filter]. now rewrite (Hrq _ He).
Qed.

Lemma portal_found_class (r : call -> bool) evs :
  r c_portal = false ->
  Forall (fun e => r (ev_call e) = true) evs ->
  portal_found evs = false.
Proof.
  intros Hr. induction 1 as [|e evs He _ IH]; [reflexivity|].
  unfold portal_found in *. cbn [existsb]. rewrite IH.
  destruct (ev_call e); try reflexivity. congruence.
Qed.

Lemma not_in_class (r : call -> bool) c evs :
  r c = false ->
  Forall (fun e => r (ev_call e) = true) evs ->
  ~ In c (map ev_call evs).
Proof.
  intros Hr F H. apply in_map_iff in H. destruct H as (e & <- & H).
  rewrite Forall_forall in F. specialize (F e H). congruence.
Qed.

Lemma portal_found_app evs1 evs2 :
  portal_found (evs1 ++ evs2) = (portal_found evs1 || portal_found evs2)%bool.
Proof. apply existsb_app. Qed.

Lemma class_weaken (r r' : call -> bool) evs :
  (forall c, r c = true -> r' c = true) ->
  Forall (fun e => r (ev_call e) = true) evs ->
  Forall (fun e => r' (ev_call e) = true) evs.
Proof. intros H. apply Forall_impl. intros e. apply H. Qed.

Lemma retry_events_class fd port evs b :
  retry_events fd port evs b ->
  Forall (fun e => ffmpeg_call (ev_call e) = true) evs.
Proof. induction 1; repeat constructor; auto. Qed.

Lemma cleanup_calls_class l s :
  Forall (fun c => cleanup_call c = true)
    (map c_close l ++ socket_calls s ++ deregister_calls s ++ reap_calls s).
Proof.
  unfold socket_calls, deregister_calls, reap_calls.
  repeat match goal with |- Forall _ (_ ++ _) => apply Forall_app; split end.
  - induction l; constructor; auto.
  - destruct (_ >? 0); repeat constructor.
  - destruct (_ >? 0); repeat constructor.
  - destruct (_portal s); repeat constructor.
  - destruct (_ >? 0); repeat constructor.
Qed.

Lemma filter_close_none (q : call -> bool) l :
  (forall fd, q (c_close fd) = false) -> filter q (map c_close l) = [].
Proof. intros H. induction l; cbn; [reflexivity|]. now rewrite H. Qed.

Lemma count_calls_map q evs :
  count_calls q evs = List.length (filter q (map ev_call evs)).
Proof.
  unfold count_calls. induction evs as [|e evs IH]; [reflexivity|].
  cbn. destruct (q (ev_call e)); cbn; now rewrite IH.
Qed.

Lemma count_CloseStream_cleanup l s :
  List.length (filter is_CloseStream
                 (map c_close l ++ socket_calls s ++ deregister_calls s
                  ++ reap_calls s))
  = if _portal s then 1%nat else 0%nat.
Proof.
  rewrite !filter_app, filter_close_none by reflexivity.
  unfold socket_calls, deregister_calls, reap_calls.
  destruct (_listenSocketFd s >? 0), (_ffmpegSocketFd s >? 0), (_portal s),
    (_ffmpegPid s >? 0); reflexivity.
Qed.

Lemma count_kill_cleanup l s :
  _ffmpegPid s <= 0 ->
  List.length (filter is_kill
                 (map c_close l ++ socket_calls s ++ deregister_calls s
                  ++ reap_calls s))
  = 0%nat.
Proof.
  intros H. rewrite !filter_app, filter_close_none by reflexivity.
  unfold socket_calls, deregister_calls, reap_calls.
  destruct (_ffmpegPid s >? 0) eqn:Hp; [lia|].
  destruct (_listenSocketFd s >? 0), (_ffmpegSocketFd s >? 0), (_portal s);
    reflexivity.
Qed.

End Counting.

Section WholeRun.

Variable E : Env.

Lemma Initialize_calls fuel w ok w1 :
  Initialize E fuel w = Ret ok w1 ->
  exists p evs,
    trace w1 = trace w ++ portal_event p :: evs /\
    _portal (app w1) = p /\
    Forall (fun e => init_call (ev_call e) = true) evs /\
    count_calls is_NewStream evs = (if ok then 1 else 0)%nat /\
    (ok = true -> p = true).
Proof.
  intros H. apply Initialize_spec in H.
  destruct H as (p & evs & T & P & [(-> & F)|(-> & pre & child & ffd & port & retry
                                               & n & Hevs & Fp & Hc & Fc & R & _)]).
  - exists p, evs. repeat split; auto; try discriminate.
    + eapply class_weaken; [|exact F]. intros c Hc. unfold init_call.
      now rewrite Hc.
    + eapply count_calls_class; [|exact F]. now intros [].
  - cbv zeta in Hevs. exists true, evs. split; [exact T|]. split; [exact P|].
    assert (Fr := retry_events_class _ _ _ _ R).
    assert (Fpre : Forall (fun e => init_call (ev_call e) = true) pre).
    { eapply class_weaken; [|exact Fp]. intros c H. unfold init_call.
      now rewrite H. }
    assert (Fch : Forall (fun e => init_call (ev_call e) = true) child).
    { eapply class_weaken; [|exact Fc]. now intros []. }
    assert (Fre : Forall (fun e => init_call (ev_call e) = true) retry).
    { eapply class_weaken; [|exact Fr]. intros c H. unfold init_call.
      rewrite H. now rewrite orb_true_r. }
    subst evs. split.
    + repeat match goal with
             | |- Forall _ (_ ++ _) => apply Forall_app; split
             end; auto; try (repeat constructor).
      destruct ok; repeat constructor.
    + rewrite !count_calls_app.
      rewrite (count_calls_class listen_call is_NewStream pre) by
          (auto; now intros []).
      rewrite (count_calls_class is_execlp is_NewStream child) by
          (auto; now intros []).
      rewrite (count_calls_class ffmpeg_call is_NewStream retry) by
          (auto; now intros []).
      destruct ok; split; auto.
Qed.

Lemma Run_calls fuel w w' :
  Run E fuel w = Ret tt w' ->
  exists evs,
    trace w' = trace w ++ evs /\
    Forall (fun e => relay_call (ev_call e) = true) evs /\
    same_handles (app w) (app w').
Proof.
  intros H. destruct (within_Run E fuel w) as (evs & T & F & S).
  rewrite H in *. eauto.
Qed.

End WholeRun.

Section Registration.

Variable E : Env.

(** The three phases of a run that got past its command line. *)
Lemma run_phases fuel argv w code w' :
  run E fuel argv w = Ret code w' ->
  List.length argv = 3%nat ->
  exists ok w1 w2 p evs_i evs_r evs_c,
    trace w' = trace w ++ portal_event p :: evs_i ++ evs_r ++ evs_c /\
    code = (if ok : bool then 0 else 1) /\
    Forall (fun e => init_call (ev_call e) = true) evs_i /\
    Forall (fun e => relay_call (ev_call e) = true) evs_r /\
    map ev_call evs_c =
      map c_close (_clientList (app w2)) ++ socket_calls (app w2)
      ++ deregister_calls (app w2) ++ reap_calls (app w2) /\
    _portal (app w2) = p /\
    _ffmpegPid (app w2) = _ffmpegPid (app w1) /\
    _listenSocketFd (app w2) = _listenSocketFd (app w1) /\
    count_calls is_NewStream evs_i = (if ok then 1 else 0)%nat /\
    (ok = true -> p = true) /\
    (exists w0, trace w0 = trace w /\ Initialize E fuel w0 = Ret ok w1) /\
    (if ok then Run E fuel w1 = Ret tt w2 else evs_r = []) /\
    trace w1 = trace w ++ portal_event p :: evs_i /\
    trace w2 = trace w1 ++ evs_r.
Proof.
  intros H H3. apply run_spec in H.
  destruct H as [(_ & _ & X)|(_ & w0 & ok & w1 & w2 & T0 & HI & HR & HC)];
    [contradiction|].
  destruct (Initialize_calls E fuel w0 ok w1 HI) as (p & evs_i & T1 & P & Fi & N & Hp).
  assert (exists evs_r,
             trace w2 = trace w1 ++ evs_r /\
             Forall (fun e => relay_call (ev_call e) = true) evs_r /\
             same_handles (app w1) (app w2) /\
             (if ok then Run E fuel w1 = Ret tt w2 else evs_r = []) /\
             code = (if ok then 0 else 1))
    as (evs_r & T2 & Fr & S2 & HR' & Hcode).
  { destruct HR as [(-> & -> & HR)|(-> & -> & T2 & A2)].
    - destruct (Run_calls E fuel w1 w2 HR) as (evs_r & T2 & Fr & S2).
      exists evs_r. auto.
    - exists []. rewrite app_nil_r, A2. repeat split; auto.
      unfold same_handles. now destruct (app w1). }
  destruct (Close_spec E w2) as (evs_c & T3 & _ & [(_ & C3 & _)|(X & _)]);
    [|rewrite HC in X; discriminate].
  rewrite HC in T3. cbn [world_of] in T3.
  exists ok, w1, w2, p, evs_i, evs_r, evs_c.
  split.
  { rewrite T3, T2, T1, T0. repeat (rewrite <- app_assoc; cbn [List.app]).
    reflexivity. }
  unfold same_handles in S2.
  split; [exact Hcode|]. split; [exact Fi|]. split; [exact Fr|].
  split; [exact C3|].
  split; [rewrite S2; exact P|].
  split; [rewrite S2; reflexivity|].
  split; [rewrite S2; reflexivity|].
  split; [exact N|]. split; [exact Hp|].
  split; [exists w0; auto|]. split; [exact HR'|].
  split; [now rewrite T1, T0|exact T2].
Qed.

(** C6, as the code has it: in a run that returns, CloseStream is called
    once if the lookup of the portal gave a proxy and not at all otherwise,
    whether NewStream was reached or not; so a run that called NewStream
    calls CloseStream exactly once. *)
Theorem CloseStream_follows_portal_lookup
    (fuel : nat) (argv : list string) (w : World) (code : Z) (w' : World) :
  run E fuel argv w = Ret code w' ->
  exists evs,
    trace w' = trace w ++ evs /\
    count_calls is_CloseStream evs = (if portal_found evs then 1 else 0)%nat /\
    (count_calls is_NewStream evs <= count_calls is_CloseStream evs)%nat.
Proof.
  intros H.
  destruct (Nat.eq_dec (List.length argv) 3) as [H3|H3].
  2:{ apply run_spec in H. destruct H as [(_ & T & _)|(X & _)]; [|contradiction].
      exists []. rewrite app_nil_r. repeat split; auto. }
  destruct (run_phases fuel argv w code w' H H3)
    as (ok & w1 & w2 & p & evs_i & evs_r & evs_c & T & _ & Fi & Fr & C & P & _ & _
        & N & Hp & _ & _ & _ & _).
  exists (portal_event p :: evs_i ++ evs_r ++ evs_c). split; [exact T|].
  assert (Fc : Forall (fun e => cleanup_call (ev_call e) = true) evs_c).
  { apply Forall_map with (f := ev_call) (P := fun c => cleanup_call c = true).
    rewrite C. apply cleanup_calls_class. }
  change (portal_event p :: evs_i ++ evs_r ++ evs_c)
    with ([portal_event p] ++ evs_i ++ evs_r ++ evs_c).
  rewrite !count_calls_app, !portal_found_app.
  rewrite (count_calls_class init_call is_CloseStream evs_i) by
      (auto; intros []; try destruct nonblock; cbn; congruence).
  rewrite (count_calls_class relay_call is_CloseStream evs_r) by
      (auto; now intros []).
  rewrite (count_calls_class relay_call is_NewStream evs_r) by
      (auto; now intros []).
  rewrite (count_calls_class cleanup_call is_NewStream evs_c) by
      (auto; now intros []).
  rewrite (portal_found_class init_call evs_i) by auto.
  rewrite (portal_found_class relay_call evs_r) by auto.
  rewrite (portal_found_class cleanup_call evs_c) by auto.
  rewrite (count_calls_map is_CloseStream evs_c), C, count_CloseStream_cleanup, P.
  rewrite N. destruct ok.
  - rewrite (Hp eq_refl). cbn. lia.
  - destruct p; cbn; lia.
Qed.

Lemma Run_first_event fuel w w' :
  Run E fuel w = Ret tt w' ->
  exists c rest,
    trace w' = trace w ++ Ev (c_accept4 (_listenSocketFd (app w))) (r_int c) :: rest.
Proof.
  unfold Run. msimpl. set (wl := mkWorld _ _ _ _).
  destruct fuel as [|fuel]; [discriminate|].
  cbn [Run_loop]. unfold bind.
  pose proof (cycle_spec E fuel wl) as Sc.
  destruct (cycle E fuel wl) as [b wc| | |]; try discriminate.
  destruct Sc as (c & r & t0 & evs & T & _).
  intros H.
  assert (exists evs', trace w' = trace wc ++ evs') as (evs' & T').
  { destruct b.
    - destruct (within_Run_loop E fuel wc) as (evs' & T' & _).
      rewrite H in T'. eauto.
    - injection H as <-. exists []. now rewrite app_nil_r. }
  exists c. eexists. rewrite T', T. cbn [List.app].
  rewrite <- app_assoc. reflexivity.
Qed.

(** C7, as the code has it: when fork fails, a run that reaches it stores
    the negative value and goes on: it creates the upstream socket and
    enters the connect-retry loop.  The run exits with 1 only if a check of
    that loop finds the flag set; if an attempt connects, it calls NewStream,
    enters Run (its first call is accept4) and exits with 0.  Cleanup sends
    no signal. *)
Theorem fork_failure_not_detected
    (fuel : nat) (argv : list string) (w : World) (code : Z) (w' : World)
    (evs : list event) :
  (forall h, sys E h c_fork < 0) ->
  run E fuel argv w = Ret code w' ->
  trace w' = trace w ++ evs ->
  In c_fork (map ev_call evs) ->
  exists pre pid ffd port retry ok rest,
    evs = pre ++ [Ev c_fork (r_int pid); Ev (c_socket false) (r_int ffd)]
          ++ retry ++ rest /\
    pid < 0 /\
    retry_events ffd port retry ok /\
    code = (if ok : bool then 0 else 1) /\
    (ok = true ->
     exists e n lfd c rest',
       rest = Ev (c_NewStream e) (r_int n) :: Ev (c_accept4 lfd) (r_int c) :: rest') /\
    count_calls is_kill evs = 0%nat.
Proof.
  intros Hfork H T Hin.
  destruct (Nat.eq_dec (List.length argv) 3) as [H3|H3].
  2:{ apply run_spec in H. destruct H as [(_ & T' & _)|(X & _)]; [|contradiction].
      rewrite T' in T. rewrite <- (app_nil_r (trace w)) in T at 1.
      apply app_inv_head in T. subst evs. destruct Hin. }
  destruct (run_phases fuel argv w code w' H H3)
    as (ok & w1 & w2 & p & evs_i & evs_r & evs_c & T' & Hcode & Fi & Fr & C & P & Pid
        & _ & _ & _ & (w0 & T0 & HI) & HR & T1 & T2).
  rewrite T' in T. apply app_inv_head in T. subst evs.
  assert (Fc : Forall (fun e => cleanup_call (ev_call e) = true) evs_c).
  { apply Forall_map with (f := ev_call) (P := fun c => cleanup_call c = true).
    rewrite C. apply cleanup_calls_class. }
  assert (Hin_i : In c_fork (map ev_call evs_i)).
  { cbn [map] in Hin. destruct Hin as [X|Hin]; [discriminate|].
    rewrite !map_app, !in_app_iff in Hin. destruct Hin as [X|[X|X]]; auto.
    - exfalso. revert X. now apply (not_in_class relay_call).
    - exfalso. revert X. now apply (not_in_class cleanup_call). }
  destruct (Initialize_spec E fuel w0 ok w1 HI)
    as (p' & evs' & T1' & _
        & [(_ & F)|(_ & pre & child & ffd & port & retry & n & Hevs & Fp & Hc & Fch
                    & R & Hpid)]).
  { rewrite T0, T1 in T1'. apply app_inv_head in T1'. injection T1' as _ <-.
    exfalso. revert Hin_i. now apply (not_in_class listen_call). }
  rewrite T0, T1 in T1'. apply app_inv_head in T1'. injection T1' as _ <-.
  cbv zeta in Hevs, Hc, Hpid.
  assert (Hneg : _ffmpegPid (app w1) < 0) by (rewrite Hpid; apply Hfork).
  rewrite Hc in Hevs by lia. cbn [List.app] in Hevs.
  exists (portal_event p :: pre), (_ffmpegPid (app w1)), ffd, port, retry, ok.
  eexists. split.
  { rewrite Hevs. cbn [List.app]. rewrite <- !app_assoc. cbn [List.app].
    rewrite <- !app_assoc. reflexivity. }
  split; [exact Hneg|]. split; [exact R|]. split; [exact Hcode|]. split.
  - intros ->.
    destruct (Run_first_event fuel w1 w2 HR) as (c & rest' & T2').
    rewrite T2 in T2'. apply app_inv_head in T2'. subst evs_r.
    do 5 eexists. cbn [List.app]. reflexivity.
  - change (portal_event p :: evs_i ++ evs_r ++ evs_c)
      with ([portal_event p] ++ evs_i ++ evs_r ++ evs_c).
    rewrite !count_calls_app.
    rewrite (count_calls_class init_call is_kill evs_i) by
        (auto; intros []; try destruct nonblock; cbn; congruence).
    rewrite (count_calls_class relay_call is_kill evs_r) by
        (auto; now intros []).
    rewrite (count_calls_map is_kill evs_c), C, count_kill_cleanup by lia.
    reflexivity.
Qed.

End Registration.

(** C6 as stated fails: the portal is found and the run is cancelled while
    it waits for the transcoder, so Initialize returns false before NewStream;
    Close still calls CloseStream. *)
Lemma CloseStream_without_NewStream :
  let o := run env_never_ready 10 argv_defaults idle_world in
  o = Ret 1 (world_of o) /\
  map ev_call (trace (world_of o)) =
    [c_portal; c_socket true; c_bind 3 9600; c_listen 3 10; c_setsockopt 3;
     c_fork; c_socket false; c_early_exit; c_connect 4 9601; c_usleep 500000;
     c_early_exit;
     c_shutdown 3; c_close 3; c_shutdown 4; c_close 4; c_CloseStream entry0;
     c_kill 77 SIGTERM; c_wait].
Proof. vm_compute. split; reflexivity. Qed.

Lemma CloseStream_follows_portal_lookup_witness :
  let w' := world_of (run env_cancelled 10 argv_defaults idle_world) in
  run env_cancelled 10 argv_defaults idle_world = Ret 0 w' /\
  exists evs,
    trace w' = trace idle_world ++ evs /\
    count_calls is_CloseStream evs = (if portal_found evs then 1 else 0)%nat /\
    (count_calls is_NewStream evs <= count_calls is_CloseStream evs)%nat.
Proof.
  intros w'. split; [unfold w'; vm_compute; reflexivity|].
  apply (CloseStream_follows_portal_lookup env_cancelled 10 argv_defaults
           idle_world 0 w').
  unfold w'; vm_compute; reflexivity.
Defined.

(** The scenario of the spec, evaluated: one NewStream, one CloseStream, one
    SIGTERM, exit code 0. *)
Example run_cancelled_scenario :
  let o := run env_cancelled 10 argv_defaults idle_world in
  o = Ret 0 (world_of o) /\
  map ev_call (trace (world_of o)) =
    [c_portal; c_socket true; c_bind 3 9600; c_listen 3 10; c_setsockopt 3;
     c_fork; c_socket false; c_early_exit; c_connect 4 9601; c_NewStream entry0;
     c_accept4 3; c_usleep 20000; c_getMSTime; c_early_exit;
     c_shutdown 3; c_close 3; c_shutdown 4; c_close 4; c_CloseStream entry0;
     c_kill 77 SIGTERM; c_wait].
Proof. vm_compute. split; reflexivity. Qed.

(** C7 as stated fails: fork returns -1, the first connect succeeds, the
    stream is registered and served until SIGINT, and the exit code is 0. *)
Lemma fork_failure_run_exits_0 :
  let o := run env_fork_fails 10 argv_defaults idle_world in
  o = Ret 0 (world_of o) /\
  map ev_call (trace (world_of o)) =
    [c_portal; c_socket true; c_bind 3 9600; c_listen 3 10; c_setsockopt 3;
     c_fork; c_socket false; c_early_exit; c_connect 4 9601; c_NewStream entry0;
     c_accept4 3; c_usleep 20000; c_getMSTime; c_early_exit;
     c_shutdown 3; c_close 3; c_shutdown 4; c_close 4; c_CloseStream entry0] /\
  In (Ev c_fork (r_int (-1))) (trace (world_of o)).
Proof. vm_compute. repeat split. do 5 right. left. reflexivity. Qed.

Lemma fork_failure_not_detected_witness :
  let w' := world_of (run env_fork_fails 10 argv_defaults idle_world) in
  (forall h, sys env_fork_fails h c_fork < 0) /\
  run env_fork_fails 10 argv_defaults idle_world = Ret 0 w' /\
  trace w' = trace idle_world ++ trace w' /\
  In c_fork (map ev_call (trace w')) /\
  exists pre pid ffd port retry ok rest,
    trace w' = pre ++ [Ev c_fork (r_int pid); Ev (c_socket false) (r_int ffd)]
               ++ retry ++ rest /\
    pid < 0 /\
    retry_events ffd port retry ok /\
    0 = (if ok : bool then 0 else 1) /\
    (ok = true ->
     exists e n lfd c rest',
       rest = Ev (c_NewStream e) (r_int n) :: Ev (c_accept4 lfd) (r_int c) :: rest') /\
    count_calls is_kill (trace w') = 0%nat.
Proof.
  intros w'.
  assert (H1 : forall h, sys env_fork_fails h c_fork < 0) by (intros h; reflexivity).
  assert (H2 : run env_fork_fails 10 argv_defaults idle_world = Ret 0 w')
    by (unfold w'; vm_compute; reflexivity).
  assert (H3 : trace w' = trace idle_world ++ trace w')
    by (unfold w'; vm_compute; reflexivity).
  assert (H4 : In c_fork (map ev_call (trace w')))
    by (unfold w'; vm_compute; do 5 right; left; reflexivity).
  split; [exact H1|]. split; [exact H2|]. split; [exact H3|]. split; [exact H4|].
  exact (fork_failure_not_detected env_fork_fails 10 argv_defaults idle_world 0 w'
           (trace w') H1 H2 H3 H4).
Defined.

(** * Further properties of the code *)

Section ReadProgress.

Variable E : Env.

(** X1: with an upstream that is never at end of stream, the read loop ends
    within [remaining] reads: it returns as soon as the fuel exceeds the bytes
    still to read. *)
Theorem fill_buffer_ends_unless_end_of_stream :
  (forall h fd n, upstream E h fd n <> Some []) ->
  forall fuel buffer remaining w,
    0 <= remaining ->
    (Z.to_nat remaining < fuel)%nat ->
    exists r w', fill_buffer E fuel buffer remaining w = Ret r w'.
Proof.
  intros Hdata. induction fuel as [|fuel IH]; intros buffer remaining w Hrem Hfuel;
    [lia|].
  cbn [fill_buffer]. destruct (remaining >? 0) eqn:Hpos.
  2:{ msimpl. do 2 eexists; reflexivity. }
  apply Z.gtb_lt in Hpos. msimpl.
  destruct (early_exit w); [msimpl; do 2 eexists; reflexivity|].
  unfold sys_read. msimpl. rewrite !app_emit.
  match goal with |- context [upstream E ?h ?fd remaining] =>
    specialize (Hdata h fd remaining);
    destruct (upstream E h fd remaining) as [d|]
  end.
  2:{ msimpl. do 2 eexists; reflexivity. }
  msimpl. destruct d as [|x d]; [congruence|].
  set (data := firstn (Z.to_nat remaining) (x :: d)).
  assert (Hlen : 1 <= Z.of_nat (List.length data) <= remaining).
  { unfold data. rewrite length_firstn. cbn [List.length]. lia. }
  destruct (Z.of_nat (List.length data) <? 0) eqn:Hneg; [lia|].
  apply IH; lia.
Qed.

End ReadProgress.

Lemma fill_buffer_ends_witness :
  (forall h fd n, upstream env_ok h fd n <> Some []) /\
  0 <= BUFFER_SIZE /\
  (Z.to_nat BUFFER_SIZE < 257)%nat /\
  exists r w', fill_buffer env_ok 257 [] BUFFER_SIZE idle_world = Ret r w'.
Proof.
  assert (H : forall h fd n, upstream env_ok h fd n <> Some [])
    by (intros h fd n; discriminate).
  split; [exact H|]. split; [easy|]. split; [cbn; lia|].
  apply (fill_buffer_ends_unless_end_of_stream env_ok H 257 [] BUFFER_SIZE
           idle_world); [easy|cbn; lia].
Defined.

Section RunProperties.

Variable E : Env.

Lemma early_exit_emit_set c r w :
  early_exit w = true -> early_exit (emit E c r w) = true.
Proof. intros H. now rewrite early_exit_emit, H. Qed.

(** X2: entered with the flag already set, Run still accepts once, sleeps
    its 20 ms and reads the clock, then returns at the first check of the
    read loop: it reads nothing from the upstream and writes to no client. *)
Theorem Run_entered_with_flag_set (fuel : nat) (w : World) :
  early_exit w = true ->
  exists c r t0 w',
    Run E (S (S (S fuel))) w = Ret tt w' /\
    trace w' = trace w
               ++ [Ev (c_accept4 (_listenSocketFd (app w))) (r_int c);
                   Ev (c_usleep 20000) (r_int r);
                   Ev c_getMSTime (r_int t0);
                   flag_event true] /\
    _clientList (app w') = accepted c (_clientList (app w)).
Proof.
  intros Hflag. unfold Run. msimpl.
  set (wl := mkWorld _ _ _ _).
  assert (Fl : early_exit wl = true) by exact Hflag.
  cbn [Run_loop]. unfold bind at 1. unfold cycle. unfold bind at 1.
  destruct (accept_client_spec E wl) as (c & w1 & R1 & T1 & A1). rewrite R1.
  assert (F1 : early_exit w1 = true).
  { revert R1. unfold accept_client. msimpl.
    destruct (_ >? 0); msimpl; intros R1; injection R1 as <-; msimpl;
      now apply early_exit_emit_set. }
  msimpl. change (sleepTime * 1000) with 20000.
  set (r := sys E (trace w1) (c_usleep 20000)).
  set (w2 := emit E (c_usleep 20000) (r_int r) w1).
  set (t0 := sys E (trace w2) c_getMSTime).
  set (w3 := emit E c_getMSTime (r_int t0) w2).
  assert (F3 : early_exit w3 = true)
    by (unfold w3, w2; now repeat apply early_exit_emit_set).
  cbn [send_loop fill_buffer]. change (BUFFER_SIZE >? 0) with true. msimpl.
  rewrite F3. msimpl.
  exists c, r, t0. eexists. split; [reflexivity|].
  rewrite trace_emit, app_emit. unfold w3, w2. rewrite !trace_emit, !app_emit, T1, A1.
  split; [now rewrite <- !app_assoc|reflexivity].
Qed.

Lemma halted_fill_last fd remaining evs :
  halted_fill fd remaining evs ->
  exists pre e, evs = pre ++ [e] /\ halting e.
Proof.
  induction 1 as [remaining H|remaining H|remaining data evs H1 H2 _ IH].
  - exists [], (flag_event true). split; [reflexivity|]. now left.
  - exists [flag_event false]. eexists. split; [reflexivity|]. right. eauto.
  - destruct IH as (pre & e & -> & He).
    exists (flag_event false
            :: Ev (c_read fd (BUFFER_SIZE - remaining) remaining) (r_data data)
            :: pre), e.
    split; [reflexivity|exact He].
Qed.

Lemma burst_false_last fd t0 l evs b l' :
  burst fd t0 l evs b l' -> b = false ->
  exists pre e, evs = pre ++ [e] /\ halting e.
Proof.
  induction 1 as [| l evs1 l1 now evs2 b l2 _ _ _ IH | l evs H]; intros Hb.
  - discriminate.
  - destruct (IH Hb) as (pre & e & -> & He).
    exists (evs1 ++ pre), e. split; [now rewrite app_assoc|exact He].
  - eapply halted_fill_last; eauto.
Qed.

Lemma Run_loop_last fuel :
  forall w w',
    Run_loop E fuel w = Ret tt w' ->
    exists pre e, trace w' = pre ++ [e] /\ halting e.
Proof.
  induction fuel as [|fuel IH]; intros w w' H; [discriminate|].
  cbn [Run_loop] in H. unfold bind in H.
  pose proof (cycle_spec E fuel w) as Sc.
  destruct (cycle E fuel w) as [b wc| | |]; try discriminate.
  destruct b; [eauto|].
  injection H as <-.
  destruct Sc as (c & r & t0 & evs & T & Bu).
  destruct (burst_false_last _ _ _ _ _ _ Bu eq_refl) as (pre & e & -> & He).
  eexists _, e. split; [|exact He]. rewrite T, !app_assoc. reflexivity.
Qed.

(** X3: Run returns in two ways only: the last thing it did was to find the
    flag set, or to get a negative result from a read on the upstream. *)
Theorem Run_returns_on_flag_or_failed_read (fuel : nat) (w w' : World) :
  Run E fuel w = Ret tt w' ->
  exists pre e, trace w' = pre ++ [e] /\ halting e.
Proof.
  unfold Run. msimpl. apply Run_loop_last.
Qed.

(** X4: however Run ends, and also while it is still looping, it made no
    call other than accept4, usleep, the clock, the flag, read and write (no
    close, no shutdown, no kill, no call to the portal), and it changed no
    member of the object other than the client list. *)
Theorem Run_makes_relay_calls_only (fuel : nat) (w : World) :
  exists evs,
    trace (world_of (Run E fuel w)) = trace w ++ evs /\
    Forall (fun e => relay_call (ev_call e) = true) evs /\
    app (world_of (Run E fuel w)) =
      set_clientList (_clientList (app (world_of (Run E fuel w)))) (app w).
Proof. apply within_Run. Qed.

Lemma survivors_in l rs fd : In fd (survivors l rs) -> In fd l.
Proof.
  unfold survivors. intros H. apply in_map_iff in H.
  destruct H as ([x r] & <- & H). apply filter_In in H. destruct H as [H _].
  now apply in_combine_l in H.
Qed.

Lemma burst_clients fd t0 l evs b l' :
  burst fd t0 l evs b l' -> forall x, In x l' -> In x l.
Proof.
  induction 1 as [l evs l' now Rd _| l evs1 l1 now evs2 b l2 Rd _ _ IH | l evs H];
    intros x Hx; auto.
  - inversion Rd; subst. eapply survivors_in; eauto.
  - apply IH in Hx. inversion Rd; subst. eapply survivors_in; eauto.
Qed.

Lemma cycle_clients fuel w b w' :
  cycle E fuel w = Ret b w' ->
  Forall (fun fd => 0 < fd) (_clientList (app w)) ->
  Forall (fun fd => 0 < fd) (_clientList (app w')).
Proof.
  intros H Hpos. pose proof (cycle_spec E fuel w) as Sc. rewrite H in Sc.
  destruct Sc as (c & r & t0 & evs & _ & Bu).
  apply Forall_forall. intros x Hx.
  apply (burst_clients _ _ _ _ _ _ Bu) in Hx.
  unfold accepted in Hx. destruct (c >? 0) eqn:Hc.
  - apply in_app_iff in Hx. destruct Hx as [Hx|[<-|[]]].
    + rewrite Forall_forall in Hpos. auto.
    + lia.
  - rewrite Forall_forall in Hpos. auto.
Qed.

Lemma Run_loop_clients fuel :
  forall w w',
    Run_loop E fuel w = Ret tt w' ->
    Forall (fun fd => 0 < fd) (_clientList (app w)) ->
    Forall (fun fd => 0 < fd) (_clientList (app w')).
Proof.
  induction fuel as [|fuel IH]; intros w w' H Hpos; [discriminate|].
  cbn [Run_loop] in H. unfold bind in H.
  destruct (cycle E fuel w) as [b wc| | |] eqn:Hc; try discriminate.
  apply cycle_clients in Hc; auto.
  destruct b; [eauto|]. now injection H as <-.
Qed.

(** X5: Run keeps the client list made of positive descriptors: accept4 adds
    a socket only when it is positive, and a broadcast only removes. *)
Theorem Run_keeps_clients_positive (fuel : nat) (w w' : World) :
  Run E fuel w = Ret tt w' ->
  Forall (fun fd => 0 < fd) (_clientList (app w)) ->
  Forall (fun fd => 0 < fd) (_clientList (app w')).
Proof.
  unfold Run. msimpl. intros H Hpos. eapply Run_loop_clients; eauto.
Qed.

End RunProperties.

Lemma Run_entered_with_flag_set_witness :
  early_exit flagged = true /\
  exists c r t0 w',
    Run env_ok 3 flagged = Ret tt w' /\
    trace w' = trace flagged
               ++ [Ev (c_accept4 (_listenSocketFd (app flagged))) (r_int c);
                   Ev (c_usleep 20000) (r_int r);
                   Ev c_getMSTime (r_int t0);
                   flag_event true] /\
    _clientList (app w') = accepted c (_clientList (app flagged)).
Proof.
  split; [reflexivity|].
  apply (Run_entered_with_flag_set env_ok 0 flagged). reflexivity.
Defined.

Lemma Run_returns_on_flag_or_failed_read_witness :
  let w' := world_of (Run env_read_fails 3 in_service) in
  Run env_read_fails 3 in_service = Ret tt w' /\
  exists pre e, trace w' = pre ++ [e] /\ halting e.
Proof.
  intros w'. split; [unfold w'; vm_compute; reflexivity|].
  apply (Run_returns_on_flag_or_failed_read env_read_fails 3 in_service w').
  unfold w'; vm_compute; reflexivity.
Defined.

Lemma Run_keeps_clients_positive_witness :
  let w' := world_of (Run env_read_fails 3 in_service) in
  Run env_read_fails 3 in_service = Ret tt w' /\
  Forall (fun fd => 0 < fd) (_clientList (app in_service)) /\
  Forall (fun fd => 0 < fd) (_clientList (app w')).
Proof.
  intros w'.
  assert (H : Run env_read_fails 3 in_service = Ret tt w')
    by (unfold w'; vm_compute; reflexivity).
  split; [exact H|]. split; [repeat constructor|].
  apply (Run_keeps_clients_positive env_read_fails 3 in_service w' H). repeat constructor.
Defined.

Ltac norm_world :=
  repeat (progress (msimpl; rewrite ?trace_emit, ?app_emit));
  rewrite <- ?app_assoc; cbn [List.app].

Section StartupProperties.

Variable E : Env.

(** X6: the block that opens the listen socket stores what socket returned
    in [_listenSocketFd] and changes no other member.  It succeeds after
    exactly socket, bind, listen with a backlog of 10 and setsockopt, in this
    order, when the first three did not return a negative value (the result
    of setsockopt is not looked at); it fails directly after the first of the
    three that did. *)
Theorem open_listen_port_steps (w : World) :
  exists ok w' lfd evs,
    open_listen_port E w = Ret ok w' /\
    trace w' = trace w ++ Ev (c_socket true) (r_int lfd) :: evs /\
    app w' = set_listenSocketFd lfd (app w) /\
    let port := htons_port (_listenPort (app w)) in
    ((ok = true /\ 0 <= lfd /\
      exists r1 r2 r3,
        0 <= r1 /\ 0 <= r2 /\
        evs = [Ev (c_bind lfd port) (r_int r1);
               Ev (c_listen lfd 10) (r_int r2);
               Ev (c_setsockopt lfd) (r_int r3)])
     \/
     (ok = false /\
      ((lfd < 0 /\ evs = [])
       \/ (exists r1, r1 < 0 /\ evs = [Ev (c_bind lfd port) (r_int r1)])
       \/ (exists r1 r2,
             0 <= r1 /\ r2 < 0 /\
             evs = [Ev (c_bind lfd port) (r_int r1);
                    Ev (c_listen lfd 10) (r_int r2)])))).
Proof.
  unfold open_listen_port. msimpl.
  set (lfd := sys E (trace w) (c_socket true)).
  destruct (lfd <? 0) eqn:H0; msimpl.
  { apply Z.ltb_lt in H0. exists false. eexists. exists lfd, [].
    split; [reflexivity|]. norm_world.
    repeat split. right. split; auto. }
  apply Z.ltb_ge in H0. rewrite !app_emit. cbn [_listenPort set_listenSocketFd].
  match goal with |- context [sys E ?h (c_bind lfd ?p) <? 0] =>
    set (r1 := sys E h (c_bind lfd p)) end.
  destruct (r1 <? 0) eqn:H1; msimpl.
  { apply Z.ltb_lt in H1. exists false. eexists. exists lfd. eexists.
    split; [reflexivity|]. norm_world.
    split; [reflexivity|]. split; [reflexivity|].
    right. split; auto. right. left. eauto. }
  apply Z.ltb_ge in H1.
  match goal with |- context [sys E ?h (c_listen lfd ?b) <? 0] =>
    set (r2 := sys E h (c_listen lfd b)) end.
  destruct (r2 <? 0) eqn:H2; msimpl.
  { apply Z.ltb_lt in H2. exists false. eexists. exists lfd. eexists.
    split; [reflexivity|]. norm_world.
    split; [reflexivity|]. split; [reflexivity|].
    right. split; auto. right. right. exists r1, r2. auto. }
  apply Z.ltb_ge in H2.
  exists true. eexists. exists lfd. eexists.
  split; [reflexivity|]. norm_world.
  split; [reflexivity|]. split; [reflexivity|].
  left. split; auto. split; auto. exists r1, r2. eexists. auto.
Qed.

Lemma fork_ffmpeg_steps (endpoint : string) (w : World) :
  let pid := sys E (trace w) c_fork in
  let o := fork_ffmpeg E endpoint w in
  exists evs,
    trace (world_of o) = trace w ++ Ev c_fork (r_int pid) :: evs /\
    app (world_of o) = set_ffmpegPid pid (app w) /\
    ((pid <> 0 /\ evs = [] /\ o = Ret tt (world_of o))
     \/
     (pid = 0 /\
      exists r,
        evs = [Ev (c_execlp "./streamer_ffmpeg.sh"
                     ["streamer_ffmpeg.sh"%string; _videoFilePath (app w); endpoint;
                      videoSize (_streamEntry (app w));
                      bitRate (_streamEntry (app w))]) (r_int r)] /\
        o = if r <? 0 then Ret tt (world_of o) else Replaced (world_of o))).
Proof.
  cbv zeta. unfold fork_ffmpeg. msimpl.
  set (pid := sys E (trace w) c_fork).
  destruct (pid =? 0) eqn:Hpid.
  - apply Z.eqb_eq in Hpid. unfold exec_ffmpeg. msimpl.
    rewrite !app_emit. cbn [_videoFilePath _streamEntry set_ffmpegPid].
    match goal with |- context [sys E ?h ?c <? 0] => set (r := sys E h c) end.
    eexists. destruct (r <? 0) eqn:Hr; norm_world;
      (split; [reflexivity|]); (split; [reflexivity|]);
      right; (split; [exact Hpid|]); exists r; rewrite Hr; split; reflexivity.
  - apply Z.eqb_neq in Hpid. msimpl. exists [].
    rewrite trace_emit, app_emit. repeat split. left. auto.
Qed.

Lemma keep_pid_refl s : keep_pid s s.
Proof. reflexivity. Qed.

Lemma keep_pid_trans s1 s2 s3 : keep_pid s1 s2 -> keep_pid s2 s3 -> keep_pid s1 s3.
Proof. unfold keep_pid. congruence. Qed.

#[local] Hint Resolve keep_pid_refl keep_pid_trans : core.

Lemma connect_retry_calls fuel ffd port :
  within retry_call keep_pid (connect_retry E fuel ffd port).
Proof.
  induction fuel as [|fuel IH]; cbn [connect_retry]; repeat within_step.
Qed.

(** X7: in the parent (fork did not return 0) no execlp is called: the
    upstream socket and the connect loop follow the fork directly.  In the
    child the script is started with the path of the video, the endpoint
    made of the transport, the address 127.0.0.1 and the transcoder port, the
    video size and the bit rate; when that execlp succeeds the process is
    gone, and when it fails the child goes on with the code of the parent,
    upstream socket and connect loop, with 0 in [_ffmpegPid]. *)
Theorem start_ffmpeg_parent_and_child (fuel : nat) (w : World) :
  let pid := sys E (trace w) c_fork in
  let o := start_ffmpeg E fuel w in
  exists evs,
    trace (world_of o) = trace w ++ Ev c_fork (r_int pid) :: evs /\
    _ffmpegPid (app (world_of o)) = pid /\
    ((pid <> 0 /\
      exists ffd retry,
        evs = Ev (c_socket false) (r_int ffd) :: retry /\
        Forall (fun e => retry_call (ev_call e) = true) retry)
     \/
     (pid = 0 /\
      exists r,
        (0 <= r /\ evs = [Ev (exec_call (app w)) (r_int r)] /\
         o = Replaced (world_of o))
        \/
        (r < 0 /\
         exists ffd retry,
           evs = Ev (exec_call (app w)) (r_int r)
                 :: Ev (c_socket false) (r_int ffd) :: retry /\
           Forall (fun e => retry_call (ev_call e) = true) retry))).
Proof.
  cbv zeta. unfold start_ffmpeg. msimpl.
  set (w0 := mkWorld _ _ _ _).
  match goal with |- context [fork_ffmpeg E ?ep w0] =>
    destruct (fork_ffmpeg_steps ep w0) as (evs & T & A & H);
    cbv zeta in T, A, H;
    change (c_execlp "./streamer_ffmpeg.sh"
              ["streamer_ffmpeg.sh"%string; _videoFilePath (app w0); ep;
               videoSize (_streamEntry (app w0)); bitRate (_streamEntry (app w0))])
      with (exec_call (app w)) in H;
    set (o1 := fork_ffmpeg E ep w0) in *
  end.
  change (trace w0) with (trace w) in *. change (app w0) with (app w) in *.
  match goal with |- context [match o1 with Ret a w' => @?k a w' | Throw w'0 => _
                                       | Replaced w'1 => _ | Timeout w'2 => _ end] =>
    set (start_rest := fun o : outcome unit =>
                         match o with
                         | Ret a w' => k a w'
                         | Throw w' => Throw w'
                         | Replaced w' => Replaced w'
                         | Timeout w' => Timeout w'
                         end);
    change (match o1 with Ret a w' => k a w' | Throw w' => Throw w'
                     | Replaced w' => Replaced w' | Timeout w' => Timeout w' end)
      with (start_rest o1)
  end.
  set (pid := sys E (trace w) c_fork) in *.
  set (w1 := world_of o1) in *.
  assert (Rest : o1 = Ret tt w1 ->
    exists ffd retry,
      trace (world_of (start_rest o1))
      = trace w1 ++ Ev (c_socket false) (r_int ffd) :: retry /\
      Forall (fun e => retry_call (ev_call e) = true) retry /\
      _ffmpegPid (app (world_of (start_rest o1))) = _ffmpegPid (app w1)).
  { intros Ho. rewrite Ho. unfold start_rest. cbv beta iota.
    match goal with |- context [connect_retry E fuel ?f ?p ?w2] =>
      destruct (connect_retry_calls fuel f p w2) as (retry & Tr & Fr & Kr);
      exists f, retry
    end.
    revert Tr Kr. unfold keep_pid. msimpl. rewrite trace_emit, app_emit.
    cbn [_ffmpegPid set_ffmpegSocketFd]. intros Tr Kr. rewrite Tr, Kr.
    rewrite <- app_assoc. auto. }
  unfold start_rest in Rest.
  destruct H as [(Hpid & -> & Ho)|(Hpid & r & -> & Ho)].
  - destruct (Rest Ho) as (ffd & retry & Tr & Fr & Kr).
    eexists. rewrite Tr, Kr, T, A.
    split; [rewrite <- app_assoc; reflexivity|]. split; [reflexivity|].
    left. split; [exact Hpid|]. eauto.
  - destruct (r <? 0) eqn:Hr.
    + apply Z.ltb_lt in Hr.
      destruct (Rest Ho) as (ffd & retry & Tr & Fr & Kr).
      eexists. rewrite Tr, Kr, T, A.
      split; [rewrite <- app_assoc; reflexivity|]. split; [reflexivity|].
      right. split; [exact Hpid|]. exists r. right. split; [exact Hr|]. eauto.
    + apply Z.ltb_ge in Hr. rewrite Ho. cbn [world_of]. fold w1.
      eexists. rewrite T, A. split; [reflexivity|]. split; [reflexivity|].
      right. split; [exact Hpid|]. exists r. left. auto.
Qed.

End StartupProperties.

Section RunProperties2.

Variable E : Env.




End RunProperties2.


Section Descriptor.

Variable E : Env.

Lemma keep_entry_refl s : keep_entry s s.
Proof. reflexivity. Qed.

Lemma keep_entry_trans s1 s2 s3 :
  keep_entry s1 s2 -> keep_entry s2 s3 -> keep_entry s1 s3.
Proof. unfold keep_entry. congruence. Qed.

#[local] Hint Resolve keep_entry_refl keep_entry_trans : core.

Lemma connect_retry_keeps_entry fuel ffd port :
  within any_call keep_entry (connect_retry E fuel ffd port).
Proof.
  induction fuel as [|fuel IH]; cbn [connect_retry]; repeat within_step.
Qed.

Lemma Initialize_keeps_entry fuel :
  within any_call keep_entry (Initialize E fuel).
Proof.
  unfold Initialize, open_listen_port, start_ffmpeg, fork_ffmpeg, exec_ffmpeg.
  repeat within_step; auto using connect_retry_keeps_entry.
Qed.

(** A run on a command line without options, cut into its phases. *)
Lemma run_three_args fuel argv w code w' :
  run E fuel argv w = Ret code w' ->
  List.length argv = 3%nat ->
  exists ok w1 w2 evs_r evs_c,
    Initialize E fuel (configured argv w) = Ret ok w1 /\
    code = (if ok : bool then 0 else 1) /\
    (if ok then Run E fuel w1 = Ret tt w2 else evs_r = []) /\
    trace w2 = trace w1 ++ evs_r /\
    Forall (fun e => relay_call (ev_call e) = true) evs_r /\
    same_handles (app w1) (app w2) /\
    Close E w2 = Ret tt w' /\
    trace w' = trace w2 ++ evs_c /\
    map ev_call evs_c =
      map c_close (_clientList (app w2)) ++ socket_calls (app w2)
      ++ deregister_calls (app w2) ++ reap_calls (app w2).
Proof.
  intros H H3. revert H. unfold run. rewrite H3.
  cbn [Nat.ltb Nat.leb Nat.sub parse_options]. msimpl.
  match goal with |- context [Initialize E fuel ?wi] => set (w0 := wi) end.
  assert (H0 : w0 = configured argv w).
  { unfold w0, configured, default_entry. cbn. rewrite app_nil_r. reflexivity. }
  rewrite H0. clear H0 w0.
  destruct (Initialize E fuel (configured argv w)) as [ok w1| | |] eqn:HI;
    try discriminate.
  assert (Fin : forall w2 evs_r,
             trace w2 = trace w1 ++ evs_r ->
             Forall (fun e => relay_call (ev_call e) = true) evs_r ->
             same_handles (app w1) (app w2) ->
             (if ok then Run E fuel w1 = Ret tt w2 else evs_r = []) ->
             match Close E w2 with
             | Ret _ w3 => Ret (if ok then 0 else 1) w3
             | Throw w3 => Throw w3
             | Replaced w3 => Replaced w3
             | Timeout w3 => Timeout w3
             end = Ret code w' ->
             exists ok0 w10 w20 evs_r0 evs_c,
               Ret ok w1 = Ret ok0 w10 /\
               code = (if ok0 : bool then 0 else 1) /\
               (if ok0 then Run E fuel w10 = Ret tt w20 else evs_r0 = []) /\
               trace w20 = trace w10 ++ evs_r0 /\
               Forall (fun e => relay_call (ev_call e) = true) evs_r0 /\
               same_handles (app w10) (app w20) /\
               Close E w20 = Ret tt w' /\
               trace w' = trace w20 ++ evs_c /\
               map ev_call evs_c =
                 map c_close (_clientList (app w20)) ++ socket_calls (app w20)
                 ++ deregister_calls (app w20) ++ reap_calls (app w20)).
  { intros w2 evs_r T2 Fr S2 HR H.
    destruct (Close_spec E w2) as (evs_c & T3 & _ & [(_ & C3 & _)|(X & _)]).
    - destruct (Close E w2) as [[] w3| | |] eqn:HC; try discriminate.
      injection H as <- <-. cbn [world_of] in T3.
      exists ok, w1, w2, evs_r, evs_c. repeat split; auto.
    - rewrite X in H. discriminate. }
  destruct ok.
  - unfold Run at 1. msimpl.
    match goal with |- context [Run_loop E fuel ?wr] =>
      change (Run_loop E fuel wr) with (Run E fuel w1) end.
    destruct (Run E fuel w1) as [[] w2| | |] eqn:HR; try discriminate.
    destruct (Run_calls E fuel w1 w2 HR) as (evs_r & T2 & Fr & S2).
    msimpl. apply (Fin w2 evs_r); auto.
  - msimpl.
    match goal with |- context [Close E ?wc] => set (w2 := wc) end.
    apply (Fin w2 []); auto.
    + now rewrite app_nil_r.
    + apply same_handles_refl.
Qed.

(** X9: in a run on a command line without options, every NewStream and
    every CloseStream call carries the same descriptor: the stream name
    given, the endpoint tcp://localhost:9600, the video size 480x270, the bit
    rate 400k and the keywords the object had before. *)
Theorem run_sends_default_descriptor
    (fuel : nat) (argv : list string) (w : World) (code : Z) (w' : World) :
  run E fuel argv w = Ret code w' ->
  List.length argv = 3%nat ->
  exists evs,
    trace w' = trace w ++ evs /\
    forall e x,
      In e evs ->
      ev_call e = c_NewStream x \/ ev_call e = c_CloseStream x ->
      x = default_entry argv (_streamEntry (app w)).
Proof.
  intros H H3.
  destruct (run_three_args fuel argv w code w' H H3)
    as (ok & w1 & w2 & evs_r & evs_c & HI & _ & _ & T2 & Fr & S2 & _ & T3 & C3).
  destruct (Initialize_keeps_entry fuel (configured argv w)) as (evs0 & _ & _ & K).
  rewrite HI in K. cbn [world_of] in K. unfold keep_entry in K.
  cbn in K.
  assert (K2 : _streamEntry (app w2) = default_entry argv (_streamEntry (app w))).
  { unfold same_handles in S2. rewrite S2. exact K. }
  destruct (Initialize_spec E fuel (configured argv w) ok w1 HI)
    as (p & evs_i & T1 & _ & Shape).
  exists (portal_event p :: evs_i ++ evs_r ++ evs_c). split.
  { rewrite T3, T2, T1. cbn [trace configured].
    repeat (rewrite <- app_assoc; cbn [List.app]). reflexivity. }
  intros e x Hin Hcall.
  assert (Hno : forall (r : call -> bool) l,
             Forall (fun e => r (ev_call e) = true) l ->
             (forall y, r (c_NewStream y) = false) ->
             (forall y, r (c_CloseStream y) = false) ->
             In e l -> False).
  { intros r l F N1 N2 Hl. rewrite Forall_forall in F. specialize (F e Hl).
    destruct Hcall as [Hc|Hc]; rewrite Hc in F; congruence. }
  destruct Hin as [<-|Hin].
  { destruct Hcall; discriminate. }
  rewrite !in_app_iff in Hin. destruct Hin as [Hin|[Hin|Hin]].
  - destruct Shape as [(_ & F)|(_ & pre & child & ffd & port & retry & n & Hevs
                                & Fp & _ & Fc & R & _)].
    + exfalso. eapply (Hno listen_call evs_i); eauto.
    + cbv zeta in Hevs. rewrite Hevs in Hin. rewrite !in_app_iff in Hin.
      destruct Hin as [X|[X|[X|[X|[X|X]]]]].
      * exfalso. eapply (Hno listen_call pre); eauto.
      * destruct X as [<-|[]]. destruct Hcall; discriminate.
      * exfalso. eapply (Hno is_execlp child); eauto.
      * destruct X as [<-|[]]. destruct Hcall; discriminate.
      * exfalso. eapply (Hno ffmpeg_call retry); eauto using retry_events_class.
      * destruct ok; [|destruct X]. destruct X as [<-|[]].
        destruct Hcall as [Hc|Hc]; [|discriminate].
        injection Hc as <-. exact K.
  - exfalso. eapply (Hno relay_call evs_r); eauto.
  - assert (Hc : In (ev_call e) (map ev_call evs_c)) by now apply in_map.
    rewrite C3 in Hc. rewrite !in_app_iff in Hc.
    unfold socket_calls, deregister_calls, reap_calls in Hc.
    assert (Hclose : forall c, In c (map c_close (_clientList (app w2))) ->
                               exists fd, c = c_close fd).
    { intros c X. apply in_map_iff in X. destruct X as (fd & <- & _). eauto. }
    destruct Hc as [X|[X|[X|X]]].
    + apply Hclose in X. destruct X as (fd & X).
      destruct Hcall as [Hc|Hc]; rewrite Hc in X; discriminate.
    + rewrite in_app_iff in X.
      destruct Hcall as [Hc|Hc]; rewrite Hc in X;
        destruct (_listenSocketFd (app w2) >? 0), (_ffmpegSocketFd (app w2) >? 0);
        cbn in X; intuition discriminate.
    + destruct Hcall as [Hc|Hc]; rewrite Hc in X;
        destruct (_portal (app w2)); cbn in X; try intuition discriminate.
      destruct X as [X|[]]. injection X as <-. exact K2.
    + destruct Hcall as [Hc|Hc]; rewrite Hc in X;
        destruct (_ffmpegPid (app w2) >? 0); cbn in X; intuition discriminate.
Qed.

(** X10: run exits with 0 exactly when it called NewStream, and with 1
    otherwise: a run cancelled while it waits for the transcoder exits with 1,
    a run that registered exits with 0 whatever made Run return, a failed
    read included. *)
Theorem run_exit_code_tells_registration
    (fuel : nat) (argv : list string) (w : World) (code : Z) (w' : World) :
  run E fuel argv w = Ret code w' ->
  exists evs,
    trace w' = trace w ++ evs /\
    ((code = 0 /\ count_calls is_NewStream evs = 1%nat)
     \/ (code = 1 /\ count_calls is_NewStream evs = 0%nat)).
Proof.
  intros H.
  destruct (Nat.eq_dec (List.length argv) 3) as [H3|H3].
  2:{ apply run_spec in H. destruct H as [(-> & T & _)|(X & _)]; [|contradiction].
      exists []. rewrite app_nil_r. split; auto. }
  destruct (run_phases E fuel argv w code w' H H3)
    as (ok & w1 & w2 & p & evs_i & evs_r & evs_c & T & Hcode & Fi & Fr & C & _ & _ & _
        & N & _ & _ & _ & _ & _).
  exists (portal_event p :: evs_i ++ evs_r ++ evs_c). split; [exact T|].
  assert (Fc : Forall (fun e => cleanup_call (ev_call e) = true) evs_c).
  { apply Forall_map with (f := ev_call) (P := fun c => cleanup_call c = true).
    rewrite C. apply cleanup_calls_class. }
  change (portal_event p :: evs_i ++ evs_r ++ evs_c)
    with ([portal_event p] ++ evs_i ++ evs_r ++ evs_c).
  rewrite !count_calls_app.
  rewrite (count_calls_class relay_call is_NewStream evs_r) by
      (auto; now intros []).
  rewrite (count_calls_class cleanup_call is_NewStream evs_c) by
      (auto; now intros []).
  rewrite N, Hcode. destruct ok; [left|right]; split; reflexivity.
Qed.

(** X11: when the lookup of the portal gives a null proxy, run makes no
    further call of initialization and returns 1 after Close; Close then acts
    on the sockets and the process identifier as the object held them before
    run, and calls neither NewStream nor CloseStream. *)
Theorem run_portal_not_found (fuel : nat) (argv : list string) (w : World) :
  List.length argv = 3%nat ->
  ice E (trace w) c_portal = Some false ->
  exists w' evs_c,
    run E fuel argv w = Ret 1 w' /\
    trace w' = trace w ++ portal_event false :: evs_c /\
    map ev_call evs_c =
      map c_close (_clientList (app w)) ++ socket_calls (app w)
      ++ reap_calls (app w).
Proof.
  intros H3 Hice. unfold run. rewrite H3.
  cbn [Nat.ltb Nat.leb Nat.sub parse_options]. msimpl.
  unfold Initialize. unfold bind at 1. unfold ice_call at 1.
  cbn [trace]. rewrite Hice. msimpl. cbn [negb]. msimpl.
  match goal with |- context [Close E ?wc] => set (w2 := wc) end.
  destruct (Close_spec E w2) as (evs_c & T3 & _ & [(Ho & C3 & _)|(_ & X & _)]).
  2:{ revert X. unfold w2. msimpl. discriminate. }
  rewrite Ho. msimpl. do 2 eexists. split; [reflexivity|].
  split.
  - rewrite T3. unfold w2. msimpl. rewrite trace_emit, <- app_assoc. reflexivity.
  - rewrite C3. unfold w2. msimpl. rewrite !app_emit.
    unfold socket_calls, deregister_calls, reap_calls. cbn. reflexivity.
Qed.

End Descriptor.

Lemma run_sends_default_descriptor_witness :
  let w' := world_of (run env_cancelled 10 argv_defaults idle_world) in
  (run env_cancelled 10 argv_defaults idle_world = Ret 0 w' /\
   List.length argv_defaults = 3%nat) /\
  exists evs,
    trace w' = trace idle_world ++ evs /\
    forall e x,
      In e evs ->
      ev_call e = c_NewStream x \/ ev_call e = c_CloseStream x ->
      x = default_entry argv_defaults (_streamEntry (app idle_world)).
Proof.
  intros w'. split; [split; [unfold w'; vm_compute; reflexivity|reflexivity]|].
  apply (run_sends_default_descriptor env_cancelled 10 argv_defaults idle_world 0 w').
  - unfold w'; vm_compute; reflexivity.
  - reflexivity.
Defined.

Lemma run_exit_code_tells_registration_witness :
  let w' := world_of (run env_never_ready 10 argv_defaults idle_world) in
  run env_never_ready 10 argv_defaults idle_world = Ret 1 w' /\
  exists evs,
    trace w' = trace idle_world ++ evs /\
    ((1 = 0 /\ count_calls is_NewStream evs = 1%nat)
     \/ (1 = 1 /\ count_calls is_NewStream evs = 0%nat)).
Proof.
  intros w'. split; [unfold w'; vm_compute; reflexivity|].
  apply (run_exit_code_tells_registration env_never_ready 10 argv_defaults
           idle_world 1 w').
  unfold w'; vm_compute; reflexivity.
Defined.

Lemma run_portal_not_found_witness :
  (List.length argv_defaults = 3%nat /\
   ice env_no_portal (trace idle_world) c_portal = Some false) /\
  exists w' evs_c,
    run env_no_portal 10 argv_defaults idle_world = Ret 1 w' /\
    trace w' = trace idle_world ++ portal_event false :: evs_c /\
    map ev_call evs_c =
      map c_close (_clientList (app idle_world)) ++ socket_calls (app idle_world)
      ++ reap_calls (app idle_world).
Proof.
  split; [split; reflexivity|].
  apply (run_portal_not_found env_no_portal 10 argv_defaults idle_world);
    reflexivity.
Defined.

Section Keywords.

Open Scope string_scope.

Lemma has_comma_app s1 s2 :
  has_comma (s1 ++ s2) = (has_comma s1 || has_comma s2)%bool.
Proof.
  induction s1 as [|c s1 IH]; [reflexivity|]. cbn. rewrite IH.
  now rewrite orb_assoc.
Qed.

Lemma append_String s1 c s2 : (s1 ++ String c "") ++ s2 = s1 ++ String c s2.
Proof. induction s1 as [|d s1 IH]; [reflexivity|]. cbn. now rewrite IH. Qed.

Lemma getline_loop_tokens ss :
  forall t extracted,
    has_comma t = false ->
    (extracted = false -> t = "") ->
    terminated (getline_loop ss t extracted)
    = t ++ ss ++ (if pending ss extracted then "," else "") /\
    Forall (fun x => has_comma x = false) (getline_loop ss t extracted).
Proof.
  induction ss as [|c ss IH]; intros t extracted Ht Hext.
  - cbn [getline_loop pending]. destruct extracted.
    + split; [reflexivity|]. repeat constructor. exact Ht.
    + rewrite (Hext eq_refl). split; [reflexivity|constructor].
  - cbn [getline_loop pending]. destruct (Ascii.eqb c ",") eqn:Hc.
    + apply Ascii.eqb_eq in Hc. subst c.
      destruct (IH "" false eq_refl (fun _ => eq_refl)) as [IH1 IH2].
      cbn [negb terminated]. rewrite IH1. split; [reflexivity|].
      constructor; assumption.
    + cbn [negb].
      destruct (IH (t ++ String c "") true) as [IH1 IH2].
      * rewrite has_comma_app, Ht. cbn. now rewrite Hc.
      * discriminate.
      * split; [|exact IH2]. rewrite IH1. apply append_String.
Qed.

(** X12: the keyword loop cuts its argument at the commas: no keyword it
    yields contains a comma, and the keywords written one after the other,
    each followed by a comma, give back the argument, with one comma added
    when the argument does not end in a comma (and is not empty).  So an
    empty argument yields no keyword, and a final comma yields no empty
    keyword after it. *)
Theorem keywords_cut_at_commas (keywords : string) :
  terminated (getline_loop keywords "" false)
  = keywords ++ (if pending keywords false then "," else "") /\
  Forall (fun x => has_comma x = false) (getline_loop keywords "" false).
Proof.
  apply (getline_loop_tokens keywords "" false); auto.
Qed.

Close Scope string_scope.

End Keywords.

Section FlagStaysSet.

Variable E : Env.

Lemma keeps_flag_ret {A} (a : A) : keeps_flag (ret a).
Proof. intros w H. exact H. Qed.

Lemma keeps_flag_out_of_fuel {A} : keeps_flag (@out_of_fuel A).
Proof. intros w H. exact H. Qed.

Lemma keeps_flag_replaced {A} : keeps_flag (@replaced A).
Proof. intros w H. exact H. Qed.

Lemma keeps_flag_get {A} (f : Streamer -> A) : keeps_flag (get f).
Proof. intros w H. exact H. Qed.

Lemma keeps_flag_modify f : keeps_flag (modify f).
Proof. intros w H. exact H. Qed.

Lemma keeps_flag_LOG sev msg : keeps_flag (LOG sev msg).
Proof. intros w H. exact H. Qed.

Lemma keeps_flag_syscall c : keeps_flag (syscall E c).
Proof. intros w H. msimpl. now apply early_exit_emit_set. Qed.

Lemma keeps_flag_read_early_exit : keeps_flag (read_early_exit E).
Proof. intros w H. msimpl. now apply early_exit_emit_set. Qed.

Lemma keeps_flag_sys_read fd offset count : keeps_flag (sys_read E fd offset count).
Proof.
  intros w H. unfold sys_read. destruct (upstream E _ fd count); msimpl;
    now apply early_exit_emit_set.
Qed.

Lemma keeps_flag_ice_call c : keeps_flag (ice_call E c).
Proof.
  intros w H. unfold ice_call. destruct (ice E _ c); msimpl;
    now apply early_exit_emit_set.
Qed.

Lemma keeps_flag_bind {A B} (m : M A) (k : A -> M B) :
  keeps_flag m -> (forall a, keeps_flag (k a)) -> keeps_flag (bind m k).
Proof.
  intros Hm Hk w H. specialize (Hm w H). unfold bind.
  destruct (m w) as [a w1|w1|w1|w1]; cbn [world_of] in *; auto.
  now apply Hk.
Qed.

Ltac flag_step :=
  intros;
  first
    [ apply keeps_flag_ret
    | apply keeps_flag_get
    | apply keeps_flag_LOG
    | apply keeps_flag_modify
    | apply keeps_flag_out_of_fuel
    | apply keeps_flag_replaced
    | apply keeps_flag_syscall
    | apply keeps_flag_read_early_exit
    | apply keeps_flag_sys_read
    | apply keeps_flag_ice_call
    | apply keeps_flag_bind
    | match goal with
      | |- keeps_flag (if ?c then _ else _) => destruct c
      | |- keeps_flag (match ?c with Some _ => _ | None => _ end) => destruct c
      end ];
  try assumption.

Lemma keeps_flag_fill_buffer fuel :
  forall buffer remaining, keeps_flag (fill_buffer E fuel buffer remaining).
Proof.
  induction fuel as [|fuel IH]; intros buffer remaining; cbn [fill_buffer];
    repeat flag_step; auto.
Qed.

Lemma keeps_flag_remove_if buffer l : keeps_flag (remove_if (send_to E buffer) l).
Proof.
  induction l as [|x l IH]; cbn [remove_if]; unfold send_to; repeat flag_step;
    auto.
Qed.

Lemma keeps_flag_send_loop fuel t0 : keeps_flag (send_loop E fuel t0).
Proof.
  induction fuel as [|fuel IH]; cbn [send_loop]; unfold broadcast;
    repeat flag_step; auto using keeps_flag_fill_buffer, keeps_flag_remove_if.
Qed.

Lemma keeps_flag_Run_loop fuel : keeps_flag (Run_loop E fuel).
Proof.
  induction fuel as [|fuel IH]; cbn [Run_loop]; unfold cycle, accept_client;
    repeat flag_step; auto using keeps_flag_send_loop.
Qed.

Lemma keeps_flag_connect_retry fuel ffd port :
  keeps_flag (connect_retry E fuel ffd port).
Proof.
  induction fuel as [|fuel IH]; cbn [connect_retry]; repeat flag_step; auto.
Qed.

Lemma keeps_flag_Initialize fuel : keeps_flag (Initialize E fuel).
Proof.
  unfold Initialize, open_listen_port, start_ffmpeg, fork_ffmpeg, exec_ffmpeg.
  repeat flag_step; auto using keeps_flag_connect_retry.
Qed.

Lemma keeps_flag_close_clients l : keeps_flag (close_clients E l).
Proof.
  induction l as [|x l IH]; cbn [close_clients]; repeat flag_step; auto.
Qed.

Lemma keeps_flag_Close : keeps_flag (Close E).
Proof.
  unfold Close. repeat flag_step; auto using keeps_flag_close_clients.
Qed.

Lemma keeps_flag_parse_options todo :
  forall i argv loc, keeps_flag (parse_options todo i argv loc).
Proof.
  induction todo as [|todo IH]; intros i argv loc; cbn [parse_options];
    unfold apply_option; repeat flag_step; auto.
Qed.

(** X13: nothing in the program clears the flag: if [early_exit] is set at
    some point of run, it is set when run ends, however run ends. *)
Theorem flag_is_never_cleared (fuel : nat) (argv : list string) (w : World) :
  early_exit w = true ->
  early_exit (world_of (run E fuel argv w)) = true.
Proof.
  revert w. change (keeps_flag (run E fuel argv)).
  unfold run, Run, PrintUsage.
  repeat flag_step; intros;
    auto using keeps_flag_parse_options, keeps_flag_connect_retry,
      keeps_flag_Run_loop, keeps_flag_close_clients.
Qed.

End FlagStaysSet.

Lemma flag_is_never_cleared_witness :
  early_exit flagged = true /\
  early_exit (world_of (run env_ok 10 argv_defaults flagged)) = true.
Proof.
  split; [reflexivity|].
  apply (flag_is_never_cleared env_ok 10 argv_defaults flagged). reflexivity.
Defined.

Section ClientBalance.

Variable E : Env.

Lemma tally_app p evs1 evs2 :
  tally p (evs1 ++ evs2) = (tally p evs1 + tally p evs2)%nat.
Proof. unfold tally. now rewrite filter_app, length_app. Qed.

Lemma fill_events_tally fd remaining evs data :
  fill_events fd remaining evs data ->
  tally failed_write evs = 0%nat /\ tally client_accepted evs = 0%nat.
Proof. induction 1; auto. Qed.

Lemma halted_fill_tally fd remaining evs :
  halted_fill fd remaining evs ->
  tally failed_write evs = 0%nat /\ tally client_accepted evs = 0%nat.
Proof. induction 1; auto. Qed.

Lemma write_events_tally buffer :
  forall l rs,
    List.length rs = List.length l ->
    (List.length (survivors l rs) + tally failed_write (write_events buffer l rs)
     = List.length l)%nat /\
    tally client_accepted (write_events buffer l rs) = 0%nat.
Proof.
  induction l as [|x l IH]; intros [|r rs] Hl; try discriminate; auto.
  injection Hl as Hl. destruct (IH rs Hl) as [IH1 IH2].
  unfold survivors, write_events, tally in *. simpl.
  unfold failed_write at 1. simpl.
  destruct (r <? 0); simpl; split; auto; lia.
Qed.

Lemma round_tally fd l evs l' now :
  round fd l evs l' now ->
  (List.length l' + tally failed_write evs = List.length l)%nat /\
  tally client_accepted evs = 0%nat.
Proof.
  intros [reads chunk rs now' Hf Hl].
  destruct (fill_events_tally _ _ _ _ Hf) as [F1 F2].
  destruct (write_events_tally chunk l rs Hl) as [W1 W2].
  rewrite !tally_app, F1, F2, W2. cbn. split; [lia|reflexivity].
Qed.

Lemma burst_tally fd t0 l evs b l' :
  burst fd t0 l evs b l' ->
  (List.length l' + tally failed_write evs = List.length l)%nat /\
  tally client_accepted evs = 0%nat.
Proof.
  induction 1 as [l evs l' now Rd _| l evs1 l1 now evs2 b l2 Rd _ _ [IH1 IH2]
                 | l evs H].
  - eapply round_tally; eauto.
  - destruct (round_tally _ _ _ _ _ Rd) as [R1 R2].
    rewrite !tally_app. split; lia.
  - destruct (halted_fill_tally _ _ _ H) as [H1 H2]. split; lia.
Qed.

Lemma accepted_tally fd c l :
  List.length (accepted c l)
  = (List.length l + tally client_accepted [Ev (c_accept4 fd) (r_int c)])%nat.
Proof.
  unfold accepted, tally. cbn [filter client_accepted ev_call ev_reply].
  destruct (c >? 0); rewrite ?length_app; cbn [List.length]; lia.
Qed.

Lemma cycle_balance fuel w b w' :
  cycle E fuel w = Ret b w' ->
  exists evs,
    trace w' = trace w ++ evs /\
    (List.length (_clientList (app w')) + tally failed_write evs
     = List.length (_clientList (app w)) + tally client_accepted evs)%nat.
Proof.
  intros H. pose proof (cycle_spec E fuel w) as Sc. rewrite H in Sc.
  destruct Sc as (c & r & t0 & evs & T & Bu).
  destruct (burst_tally _ _ _ _ _ _ Bu) as [B1 B2].
  eexists. split; [exact T|].
  change [Ev (c_accept4 (_listenSocketFd (app w))) (r_int c);
          Ev (c_usleep 20000) (r_int r); Ev c_getMSTime (r_int t0)]
    with ([Ev (c_accept4 (_listenSocketFd (app w))) (r_int c)]
          ++ [Ev (c_usleep 20000) (r_int r); Ev c_getMSTime (r_int t0)]).
  rewrite !tally_app, B2.
  rewrite (accepted_tally (_listenSocketFd (app w))) in B1.
  change (tally failed_write [Ev (c_accept4 (_listenSocketFd (app w))) (r_int c)])
    with 0%nat.
  change (tally failed_write [Ev (c_usleep 20000) (r_int r);
                              Ev c_getMSTime (r_int t0)]) with 0%nat.
  change (tally client_accepted [Ev (c_usleep 20000) (r_int r);
                                 Ev c_getMSTime (r_int t0)]) with 0%nat.
  lia.
Qed.

Lemma Run_loop_balance fuel :
  forall w w',
    Run_loop E fuel w = Ret tt w' ->
    exists evs,
      trace w' = trace w ++ evs /\
      (List.length (_clientList (app w')) + tally failed_write evs
       = List.length (_clientList (app w)) + tally client_accepted evs)%nat.
Proof.
  induction fuel as [|fuel IH]; intros w w' H; [discriminate|].
  cbn [Run_loop] in H. unfold bind in H.
  destruct (cycle E fuel w) as [b wc| | |] eqn:Hc; try discriminate.
  destruct (cycle_balance _ _ _ _ Hc) as (evs1 & T1 & B1).
  destruct b.
  - destruct (IH _ _ H) as (evs2 & T2 & B2).
    exists (evs1 ++ evs2). rewrite T2, T1, app_assoc, !tally_app.
    split; [reflexivity|lia].
  - injection H as <-. eauto.
Qed.

(** X14: over a whole Run the client list is accounted for by the calls made:
    its length at the end is its length at the start, plus the accept4 calls
    that returned a positive socket, minus the writes that returned a
    negative value. *)
Theorem Run_clients_accounted (fuel : nat) (w w' : World) :
  Run E fuel w = Ret tt w' ->
  exists evs,
    trace w' = trace w ++ evs /\
    (List.length (_clientList (app w')) + tally failed_write evs
     = List.length (_clientList (app w)) + tally client_accepted evs)%nat.
Proof.
  unfold Run. msimpl. intros H. apply Run_loop_balance in H. exact H.
Qed.

End ClientBalance.

Lemma Run_clients_accounted_witness :
  let w' := world_of (Run env_churn 6 in_service) in
  Run env_churn 6 in_service = Ret tt w' /\
  exists evs,
    trace w' = trace in_service ++ evs /\
    (List.length (_clientList (app w')) + tally failed_write evs
     = List.length (_clientList (app in_service)) + tally client_accepted evs)%nat.
Proof.
  intros w'. split; [unfold w'; vm_compute; reflexivity|].
  apply (Run_clients_accounted env_churn 6 in_service w').
  unfold w'; vm_compute; reflexivity.
Defined.
